(** * gin-golang-api: the in-memory user and post repositories of main.go

    A shallow embedding of the handlers of [src/main.go].  The package-level
    variables [users], [posts], [userCounter] and [postCounter] become one
    record that every handler receives and returns.  What a handler reads
    from its [*gin.Context] (the [:id] path parameter, the outcome of
    [ShouldBindJSON]) and from the clock ([time.Now()]) is an argument; what
    it writes with [c.JSON] is the response it returns. *)

From Stdlib Require Import ZArith String Ascii List Lia.
From stdpp Require Import base decidable option numbers list strings.

Local Open Scope string_scope.
Local Open Scope list_scope.
Local Open Scope Z_scope.

(** ** Machine integers and time *)

(** Go's [uint] on the 64-bit targets.  Arithmetic on it wraps around. *)
Definition uint_size : Z := 64.
Definition uint_modulus : Z := 2 ^ uint_size.

(** The conversion [uint(x)], and [x++] on a [uint]. *)
Definition uint (x : Z) : Z := x mod uint_modulus.
Definition uint_incr (x : Z) : Z := uint (x + 1).

(** A [time.Time], counted from the zero value of the type. *)
Definition Time : Type := Z.
Definition zero_Time : Time := 0.

(** ** Entities *)

Module User.

Record t : Type := mk {
  ID : Z;
  Username : string;
  Email : string;
  CreatedAt : Time;
  UpdatedAt : Time
}.

(** [User{}] *)
Definition zero : t := mk 0 "" "" zero_Time zero_Time.

Definition set_Username (v : string) (u : t) : t :=
  mk (ID u) v (Email u) (CreatedAt u) (UpdatedAt u).
Definition set_Email (v : string) (u : t) : t :=
  mk (ID u) (Username u) v (CreatedAt u) (UpdatedAt u).
Definition set_UpdatedAt (v : Time) (u : t) : t :=
  mk (ID u) (Username u) (Email u) (CreatedAt u) v.

End User.

Module Post.

Record t : Type := mk {
  ID : Z;
  Title : string;
  Content : string;
  AuthorID : Z;
  Author : User.t;
  CreatedAt : Time;
  UpdatedAt : Time
}.

Definition zero : t := mk 0 "" "" 0 User.zero zero_Time zero_Time.

Definition set_Title (v : string) (p : t) : t :=
  mk (ID p) v (Content p) (AuthorID p) (Author p) (CreatedAt p) (UpdatedAt p).
Definition set_Content (v : string) (p : t) : t :=
  mk (ID p) (Title p) v (AuthorID p) (Author p) (CreatedAt p) (UpdatedAt p).
Definition set_UpdatedAt (v : Time) (p : t) : t :=
  mk (ID p) (Title p) (Content p) (AuthorID p) (Author p) (CreatedAt p) v.

End Post.

#[global] Instance User_inhabited : Inhabited User.t := populate User.zero.
#[global] Instance Post_inhabited : Inhabited Post.t := populate Post.zero.

Record CreateUserRequest : Type := {
  Username : string;
  Email : string
}.

Record CreatePostRequest : Type := {
  Title : string;
  Content : string
}.

(** ** The package-level variables *)

Record State : Type := {
  users : list User.t;
  posts : list Post.t;
  userCounter : Z;
  postCounter : Z
}.

(** [var users []User], [var posts []Post], both counters start at 1. *)
Definition init_state : State :=
  {| users := []; posts := []; userCounter := 1; postCounter := 1 |}.

Definition set_users (v : list User.t) (s : State) : State :=
  {| users := v; posts := posts s;
     userCounter := userCounter s; postCounter := postCounter s |}.
Definition set_posts (v : list Post.t) (s : State) : State :=
  {| users := users s; posts := v;
     userCounter := userCounter s; postCounter := postCounter s |}.
Definition set_userCounter (v : Z) (s : State) : State :=
  {| users := users s; posts := posts s;
     userCounter := v; postCounter := postCounter s |}.
Definition set_postCounter (v : Z) (s : State) : State :=
  {| users := users s; posts := posts s;
     userCounter := userCounter s; postCounter := v |}.

(** ** What a handler reads and writes *)

(** The outcome of [c.ShouldBindJSON(&req)]: an error with its message, or
    the decoded and validated request. *)
Inductive Bind (A : Type) : Type :=
| BindError (msg : string)
| Bound (req : A).
Arguments BindError {A} msg.
Arguments Bound {A} req.

(** The value handed to [c.JSON]. *)
Inductive Body : Type :=
| ErrorBody (error : string)
| MessageBody (message : string)
| UserBody (user : User.t)
| PostBody (post : Post.t)
| UsersBody (us : list User.t) (count : nat)
| PostsBody (ps : list Post.t) (count : nat).

Record Response : Type := JSON {
  status : Z;
  body : Body
}.

Definition StatusOK : Z := 200.
Definition StatusCreated : Z := 201.
Definition StatusBadRequest : Z := 400.
Definition StatusNotFound : Z := 404.
Definition StatusConflict : Z := 409.

(** ** strconv.ParseUint at base 10

    The handlers call [strconv.ParseUint(c.Param("id"), 10, 32)].  This is
    the loop of the Go library at [base = 10]: a byte that is no digit of
    the base is a syntax error, a value above [1<<bitSize - 1] a range
    error.  The accumulator is a [uint64]. *)

Inductive NumError : Type := ErrSyntax | ErrRange | ErrBitSize.

Definition maxUint64 : Z := 2 ^ 64 - 1.
Definition IntSize : Z := uint_size.

Definition bytes (s : string) : list Z :=
  map (fun a => Z.of_N (N_of_ascii a)) (list_ascii_of_string s).

(** [c | ('x' - 'X')] *)
Definition lower (c : Z) : Z := Z.lor c 32.

Fixpoint ParseUint_loop (cutoff maxVal : Z) (cs : list Z) (n : Z)
  : Z * option NumError :=
  match cs with
  | [] => (n, None)
  | c :: rest =>
      let digit :=
        if (48 <=? c) && (c <=? 57) then Some (c - 48)
        else if (97 <=? lower c) && (lower c <=? 122)
             then Some (lower c - 97 + 10)
             else None in
      match digit with
      | None => (0, Some ErrSyntax)
      | Some d =>
          if 10 <=? d then (0, Some ErrSyntax)
          else if cutoff <=? n then (maxVal, Some ErrRange)
          else
            let n' := (n * 10) mod 2 ^ 64 in
            let n1 := (n' + d) mod 2 ^ 64 in
            if (n1 <? n') || (maxVal <? n1) then (maxVal, Some ErrRange)
            else ParseUint_loop cutoff maxVal rest n1
      end
  end.

Definition ParseUint_base10 (s : string) (bitSize : Z) : Z * option NumError :=
  if bool_decide (s = "") then (0, Some ErrSyntax)
  else
    let bitSize := if bitSize =? 0 then IntSize else bitSize in
    if (bitSize <? 0) || (64 <? bitSize) then (0, Some ErrBitSize)
    else
      ParseUint_loop (maxUint64 / 10 + 1) (2 ^ bitSize - 1) (bytes s) 0.

(** ** User handlers *)

(** The test of the loop in [createUser]. *)
Definition user_clash (req : CreateUserRequest) (user : User.t) : bool :=
  bool_decide (User.Username user = Username req)
  || bool_decide (User.Email user = Email req).

(** The test of the inner loop of [updateUser]. *)
Definition other_user_clash (req : CreateUserRequest) (user otherUser : User.t)
  : bool :=
  bool_decide (User.ID otherUser ≠ User.ID user)
  && (bool_decide (User.Username otherUser = Username req)
      || bool_decide (User.Email otherUser = Email req)).

Definition getUsers (s : State) : Response * State :=
  (JSON StatusOK (UsersBody (users s) (length (users s))), s).

Definition createUser (bind : Bind CreateUserRequest) (s : State)
  : Response * State :=
  match bind with
  | BindError msg => (JSON StatusBadRequest (ErrorBody msg), s)
  | Bound req =>
      if existsb (user_clash req) (users s)
      then (JSON StatusConflict (ErrorBody "User already exists"), s)
      else
        let user :=
          User.mk (userCounter s) (Username req) (Email req)
                  zero_Time zero_Time in
        let s := set_users (users s ++ [user]) s in
        let s := set_userCounter (uint_incr (userCounter s)) s in
        (JSON StatusCreated (UserBody user), s)
  end.

Definition getUser (id_param : string) (s : State) : Response * State :=
  match ParseUint_base10 id_param 32 with
  | (_, Some _) => (JSON StatusBadRequest (ErrorBody "Invalid user ID"), s)
  | (id, None) =>
      match list_find (fun user => User.ID user = uint id) (users s) with
      | Some (_, user) => (JSON StatusOK (UserBody user), s)
      | None => (JSON StatusNotFound (ErrorBody "User not found"), s)
      end
  end.

Definition updateUser (id_param : string) (bind : Bind CreateUserRequest)
    (now : Time) (s : State) : Response * State :=
  match ParseUint_base10 id_param 32 with
  | (_, Some _) => (JSON StatusBadRequest (ErrorBody "Invalid user ID"), s)
  | (id, None) =>
      match bind with
      | BindError msg => (JSON StatusBadRequest (ErrorBody msg), s)
      | Bound req =>
          match list_find (fun user => User.ID user = uint id) (users s) with
          | Some (i, user) =>
              if existsb (other_user_clash req user) (users s)
              then (JSON StatusConflict
                      (ErrorBody "Username or email already exists"), s)
              else
                let s := set_users
                  (alter (User.set_Username (Username req)) i (users s)) s in
                let s := set_users
                  (alter (User.set_Email (Email req)) i (users s)) s in
                let s := set_users
                  (alter (User.set_UpdatedAt now) i (users s)) s in
                (JSON StatusOK (UserBody (users s !!! i)), s)
          | None => (JSON StatusNotFound (ErrorBody "User not found"), s)
          end
      end
  end.

Definition deleteUser (id_param : string) (s : State) : Response * State :=
  match ParseUint_base10 id_param 32 with
  | (_, Some _) => (JSON StatusBadRequest (ErrorBody "Invalid user ID"), s)
  | (id, None) =>
      match list_find (fun user => User.ID user = uint id) (users s) with
      | Some (i, _) =>
          (JSON StatusOK (MessageBody "User deleted successfully"),
           set_users (delete i (users s)) s)
      | None => (JSON StatusNotFound (ErrorBody "User not found"), s)
      end
  end.

(** ** Post handlers *)

Definition getPosts (s : State) : Response * State :=
  (JSON StatusOK (PostsBody (posts s) (length (posts s))), s).

Definition createPost (bind : Bind CreatePostRequest) (s : State)
  : Response * State :=
  match bind with
  | BindError msg => (JSON StatusBadRequest (ErrorBody msg), s)
  | Bound req =>
      let authorID :=
        if bool_decide (0 < length (users s))%nat
        then User.ID (users s !!! 0%nat)
        else 1 in
      let post :=
        Post.mk (postCounter s) (Title req) (Content req) authorID
                User.zero zero_Time zero_Time in
      let s := set_posts (posts s ++ [post]) s in
      let s := set_postCounter (uint_incr (postCounter s)) s in
      (JSON StatusCreated (PostBody post), s)
  end.

Definition getPost (id_param : string) (s : State) : Response * State :=
  match ParseUint_base10 id_param 32 with
  | (_, Some _) => (JSON StatusBadRequest (ErrorBody "Invalid post ID"), s)
  | (id, None) =>
      match list_find (fun post => Post.ID post = uint id) (posts s) with
      | Some (_, post) => (JSON StatusOK (PostBody post), s)
      | None => (JSON StatusNotFound (ErrorBody "Post not found"), s)
      end
  end.

Definition updatePost (id_param : string) (bind : Bind CreatePostRequest)
    (now : Time) (s : State) : Response * State :=
  match ParseUint_base10 id_param 32 with
  | (_, Some _) => (JSON StatusBadRequest (ErrorBody "Invalid post ID"), s)
  | (id, None) =>
      match bind with
      | BindError msg => (JSON StatusBadRequest (ErrorBody msg), s)
      | Bound req =>
          match list_find (fun post => Post.ID post = uint id) (posts s) with
          | Some (i, _) =>
              let s := set_posts
                (alter (Post.set_Title (Title req)) i (posts s)) s in
              let s := set_posts
                (alter (Post.set_Content (Content req)) i (posts s)) s in
              let s := set_posts
                (alter (Post.set_UpdatedAt now) i (posts s)) s in
              (JSON StatusOK (PostBody (posts s !!! i)), s)
          | None => (JSON StatusNotFound (ErrorBody "Post not found"), s)
          end
      end
  end.

Definition deletePost (id_param : string) (s : State) : Response * State :=
  match ParseUint_base10 id_param 32 with
  | (_, Some _) => (JSON StatusBadRequest (ErrorBody "Invalid post ID"), s)
  | (id, None) =>
      match list_find (fun post => Post.ID post = uint id) (posts s) with
      | Some (i, _) =>
          (JSON StatusOK (MessageBody "Post deleted successfully"),
           set_posts (delete i (posts s)) s)
      | None => (JSON StatusNotFound (ErrorBody "Post not found"), s)
      end
  end.

(** ** The routes of [main], and a server run *)

Inductive Request : Type :=
| GET_users
| POST_users (body : Bind CreateUserRequest)
| GET_users_id (id : string)
| PUT_users_id (id : string) (body : Bind CreateUserRequest)
| DELETE_users_id (id : string)
| GET_posts
| POST_posts (body : Bind CreatePostRequest)
| GET_posts_id (id : string)
| PUT_posts_id (id : string) (body : Bind CreatePostRequest)
| DELETE_posts_id (id : string).

(** One request served at clock reading [now]. *)
Definition handle (now : Time) (r : Request) (s : State) : Response * State :=
  match r with
  | GET_users => getUsers s
  | POST_users b => createUser b s
  | GET_users_id id => getUser id s
  | PUT_users_id id b => updateUser id b now s
  | DELETE_users_id id => deleteUser id s
  | GET_posts => getPosts s
  | POST_posts b => createPost b s
  | GET_posts_id id => getPost id s
  | PUT_posts_id id b => updatePost id b now s
  | DELETE_posts_id id => deletePost id s
  end.

(** Requests served one after the other; the responses in order. *)
Fixpoint run (reqs : list (Time * Request)) (s : State)
  : list Response * State :=
  match reqs with
  | [] => ([], s)
  | (now, r) :: rest =>
      let '(resp, s1) := handle now r s in
      let '(resps, s2) := run rest s1 in
      (resp :: resps, s2)
  end.

(** ** Vocabulary of the specification *)

(** *** Identity parameters

    "Decimal unsigned 32-bit integers": a non-empty string of the digits
    [0]..[9] whose value is below [2^32]. *)

Definition is_digit (c : Z) : Prop := 48 <= c <= 57.

Definition decimal_step (acc c : Z) : Z := acc * 10 + (c - 48).

Definition decimal_value (s : string) : Z :=
  fold_left decimal_step (bytes s) 0.

Definition decimal_uint32 (s : string) : Prop :=
  s <> "" /\ Forall is_digit (bytes s) /\ decimal_value s < 2 ^ 32.

#[global] Instance is_digit_dec c : Decision (is_digit c).
Proof. unfold is_digit. apply _. Defined.

#[global] Instance decimal_uint32_dec s : Decision (decimal_uint32 s).
Proof. unfold decimal_uint32. apply _. Defined.

(** *** Presence of an entity *)

Definition user_present (id : Z) (s : State) : Prop :=
  exists u, u ∈ users s /\ User.ID u = id.

Definition post_present (id : Z) (s : State) : Prop :=
  exists p, p ∈ posts s /\ Post.ID p = id.

(** *** Uniqueness of usernames and emails

    Two entries of the collection that agree on the username or on the
    email are the same entry. *)

Definition unique_users (l : list User.t) : Prop :=
  forall (i j : nat) u v,
    l !! i = Some u -> l !! j = Some v ->
    User.Username u = User.Username v \/ User.Email u = User.Email v ->
    i = j.

Definition unique_ids (l : list User.t) : Prop :=
  forall (i j : nat) u v,
    l !! i = Some u -> l !! j = Some v -> User.ID u = User.ID v -> i = j.

(** *** The user repository is in order

    The counter has not wrapped, every stored identity was handed out before
    (it is below the counter), and identities, usernames and emails are
    unique. *)

Record users_ok (s : State) : Prop := {
  ok_counter : 1 <= userCounter s < uint_modulus;
  ok_below : forall u, u ∈ users s -> 1 <= User.ID u < userCounter s;
  ok_ids : unique_ids (users s);
  ok_unique : unique_users (users s)
}.

(** *** Identities handed out during a run *)

Definition created_user_id (r : Response) : option Z :=
  match r with
  | JSON st (UserBody u) =>
      if bool_decide (st = StatusCreated) then Some (User.ID u) else None
  | _ => None
  end.

Definition created_post_id (r : Response) : option Z :=
  match r with
  | JSON st (PostBody p) =>
      if bool_decide (st = StatusCreated) then Some (Post.ID p) else None
  | _ => None
  end.

Definition created_user_ids (rs : list Response) : list Z :=
  omap created_user_id rs.

Definition created_post_ids (rs : list Response) : list Z :=
  omap created_post_id rs.

(** Later in the list means larger: no identity comes back, and none is
    followed by a smaller one. *)
Definition strictly_increasing (l : list Z) : Prop :=
  forall (i j : nat) a b,
    l !! i = Some a -> l !! j = Some b -> (i < j)%nat -> a < b.

(** *** Routes by repository *)

Definition user_route (r : Request) : bool :=
  match r with
  | GET_users | POST_users _ | GET_users_id _ | PUT_users_id _ _
  | DELETE_users_id _ => true
  | _ => false
  end.

(** The [:id] parameter of a by-id route. *)
Definition id_param (r : Request) : option string :=
  match r with
  | GET_users_id id | PUT_users_id id _ | DELETE_users_id id
  | GET_posts_id id | PUT_posts_id id _ | DELETE_posts_id id => Some id
  | _ => None
  end.

(** The entity a by-id route looks for is in its repository. *)
Definition entity_present (r : Request) (id : Z) (s : State) : Prop :=
  if user_route r then user_present id s else post_present id s.

(** The request body, where the route reads one, was bound. *)
Definition body_bound (r : Request) : Prop :=
  match r with
  | POST_users (BindError _) | PUT_users_id _ (BindError _)
  | POST_posts (BindError _) | PUT_posts_id _ (BindError _) => False
  | _ => True
  end.

(** ** Sample data *)

Definition alice : CreateUserRequest :=
  {| Username := "alice"; Email := "a@x.com" |}.

Definition bob : CreateUserRequest :=
  {| Username := "bob"; Email := "b@x.com" |}.

Definition hello : CreatePostRequest :=
  {| Title := "T"; Content := "C" |}.

(** The state after [POST /posts] on the fresh server. *)
Definition one_post : State :=
  snd (run [(10, POST_posts (Bound hello))] init_state).

(** The state after [POST /users] for alice, then for bob. *)
Definition two_users : State :=
  snd (run [(10, POST_users (Bound alice)); (20, POST_users (Bound bob))]
           init_state).

(** The state after alice registered at clock reading 100 and was updated
    at clock reading 200. *)
Definition updated_once : State :=
  snd (run [(100, POST_users (Bound alice));
            (200, PUT_users_id "1" (Bound alice))] init_state).



(** ** Further vocabulary *)

(** *** The statuses a route answers with *)

Definition route_statuses (r : Request) : list Z :=
  match r with
  | GET_users | GET_posts => [StatusOK]
  | POST_users _ => [StatusCreated; StatusBadRequest; StatusConflict]
  | POST_posts _ => [StatusCreated; StatusBadRequest]
  | PUT_users_id _ _ =>
      [StatusOK; StatusBadRequest; StatusNotFound; StatusConflict]
  | GET_users_id _ | DELETE_users_id _
  | GET_posts_id _ | PUT_posts_id _ _ | DELETE_posts_id _ =>
      [StatusOK; StatusBadRequest; StatusNotFound]
  end.

Definition read_route (r : Request) : bool :=
  match r with
  | GET_users | GET_users_id _ | GET_posts | GET_posts_id _ => true
  | _ => false
  end.

(** *** Counting along a run *)

(** The answer of a [DELETE /users/:id] that removed a user. *)
Definition user_deleted (r : Response) : bool :=
  match body r with
  | MessageBody m => bool_decide (m = "User deleted successfully")
  | _ => false
  end.

Definition post_deleted (r : Response) : bool :=
  match body r with
  | MessageBody m => bool_decide (m = "Post deleted successfully")
  | _ => false
  end.

Definition users_deleted (rs : list Response) : nat :=
  length (List.filter user_deleted rs).

Definition posts_deleted (rs : list Response) : nat :=
  length (List.filter post_deleted rs).

(** *** The post repository is in order *)

Definition unique_post_ids (l : list Post.t) : Prop :=
  forall (i j : nat) p q,
    l !! i = Some p -> l !! j = Some q -> Post.ID p = Post.ID q -> i = j.

Record posts_ok (s : State) : Prop := {
  pok_counter : 1 <= postCounter s < uint_modulus;
  pok_below : forall p, p ∈ posts s -> 1 <= Post.ID p < postCounter s;
  pok_ids : unique_post_ids (posts s)
}.

(** *** Another spelling of the [:id] parameter *)

Definition set_id (id : string) (r : Request) : Request :=
  match r with
  | GET_users_id _ => GET_users_id id
  | PUT_users_id _ b => PUT_users_id id b
  | DELETE_users_id _ => DELETE_users_id id
  | GET_posts_id _ => GET_posts_id id
  | PUT_posts_id _ b => PUT_posts_id id b
  | DELETE_posts_id _ => DELETE_posts_id id
  | _ => r
  end.

(** *** Fields no handler assigns *)

Definition creation_fields_zero (s : State) : Prop :=
  (forall u, u ∈ users s -> User.CreatedAt u = zero_Time)
  /\ (forall p, p ∈ posts s ->
        Post.CreatedAt p = zero_Time /\ Post.Author p = User.zero).

(** *** Collections in the order of their identities *)

Definition users_in_id_order (s : State) : Prop :=
  strictly_increasing (User.ID <$> users s).

(** A state with one user whose identity does not fit 32 bits: what is left
    after [2^32 + 1] users registered and all but the last were deleted. *)
Definition high_user : User.t :=
  User.mk 4294967296 "zed" "z@x.com" zero_Time zero_Time.

Definition high_user_state : State :=
  {| users := [high_user]; posts := [];
     userCounter := 4294967297; postCounter := 1 |}.

(** ** First checks *)

Example run_scenario :
  map status (fst (run
    [(10, POST_users (Bound alice));
     (11, POST_users (Bound {| Username := "alice"; Email := "b@x.com" |}));
     (12, POST_users (Bound {| Username := "bob"; Email := "a@x.com" |}));
     (13, POST_users (Bound {| Username := "bob"; Email := "b@x.com" |}));
     (14, GET_users_id "2"); (15, GET_users_id "x"); (16, GET_users_id "3");
     (17, GET_users_id "4294967296"); (17, GET_users_id "0002")]
    init_state)) = [201; 409; 409; 201; 200; 400; 404; 400; 200].
Proof. vm_compute. reflexivity. Qed.

(** ** Parsing identity parameters *)

Lemma decimal_step_mono cs : forall n,
  0 <= n -> Forall is_digit cs -> n <= fold_left decimal_step cs n.
Proof.
  induction cs as [|c cs IH]; intros n Hn Hd; simpl; [lia|].
  inversion Hd as [|? ? Hc Hcs]; subst.
  unfold is_digit in Hc.
  etransitivity; [|apply IH; [unfold decimal_step; lia|assumption]].
  unfold decimal_step; lia.
Qed.

Lemma ParseUint_loop_digits cs : forall n,
  0 <= n <= 2 ^ 32 - 1 -> Forall is_digit cs ->
  fold_left decimal_step cs n <= 2 ^ 32 - 1 ->
  ParseUint_loop (maxUint64 / 10 + 1) (2 ^ 32 - 1) cs n = (fold_left decimal_step cs n, None).
Proof.
  induction cs as [|c cs IH]; intros n Hn Hd Hv; simpl; [reflexivity|].
  inversion Hd as [|? ? Hc Hcs]; subst.
  unfold is_digit in Hc.
  assert (Hstep : 0 <= decimal_step n c <= 2 ^ 32 - 1).
  { split; [unfold decimal_step; lia|].
    etransitivity; [apply decimal_step_mono; [unfold decimal_step; lia|]|];
      eassumption. }
  unfold decimal_step in Hstep |- *.
  change maxUint64 with 18446744073709551615.
  change (2 ^ 64) with 18446744073709551616.
  change (2 ^ 32) with 4294967296 in *.
  destruct (Z.leb_spec 48 c); [|lia].
  destruct (Z.leb_spec c 57); [|lia]. simpl.
  destruct (Z.leb_spec 10 (c - 48)); [lia|].
  destruct (Z.leb_spec (18446744073709551615 / 10 + 1) n);
    [change (18446744073709551615 / 10 + 1) with 1844674407370955162 in *; lia|].
  rewrite (Z.mod_small (n * 10)) by lia.
  rewrite (Z.mod_small (n * 10 + (c - 48))) by lia.
  destruct (Z.ltb_spec (n * 10 + (c - 48)) (n * 10)); [lia|].
  destruct (Z.ltb_spec (4294967296 - 1) (n * 10 + (c - 48))); [lia|]. simpl.
  apply IH; [lia|assumption|assumption].
Qed.

Lemma ParseUint_loop_ok cs : forall n v,
  0 <= n <= 2 ^ 32 - 1 ->
  ParseUint_loop (maxUint64 / 10 + 1) (2 ^ 32 - 1) cs n = (v, None) ->
  Forall is_digit cs /\ v = fold_left decimal_step cs n /\ 0 <= v <= 2 ^ 32 - 1.
Proof.
  induction cs as [|c cs IH]; intros n v Hn; simpl.
  { intros [= <-]. repeat split; [constructor|lia|lia]. }
  change maxUint64 with 18446744073709551615.
  change (2 ^ 64) with 18446744073709551616.
  change (2 ^ 32) with 4294967296 in *.
  change (18446744073709551615 / 10 + 1) with 1844674407370955162.
  destruct (Z.leb_spec 48 c); simpl.
  - destruct (Z.leb_spec c 57); simpl.
    + destruct (Z.leb_spec 10 (c - 48)); [lia|].
      destruct (Z.leb_spec 1844674407370955162 n); [lia|].
      rewrite (Z.mod_small (n * 10)) by lia.
      rewrite (Z.mod_small (n * 10 + (c - 48))) by lia.
      destruct (Z.ltb_spec (n * 10 + (c - 48)) (n * 10)); [lia|].
      destruct (Z.ltb_spec (4294967296 - 1) (n * 10 + (c - 48)));
        simpl; [discriminate|].
      intros Hl. apply IH in Hl; [|lia].
      destruct Hl as (Hd & -> & Hv).
      repeat split; [constructor; [unfold is_digit; lia|assumption]|lia|lia].
    + destruct ((97 <=? lower c) && (lower c <=? 122)) eqn:E; [|discriminate].
      apply andb_prop in E as [E1 _]. apply Z.leb_le in E1.
      destruct (Z.leb_spec 10 (lower c - 97 + 10)); [discriminate|lia].
  - destruct ((97 <=? lower c) && (lower c <=? 122)) eqn:E; [|discriminate].
    apply andb_prop in E as [E1 _]. apply Z.leb_le in E1.
    destruct (Z.leb_spec 10 (lower c - 97 + 10)); [discriminate|lia].
Qed.

(** [ParseUint(s, 10, 32)] succeeds exactly on the decimal unsigned 32-bit
    integers, with their value. *)
Lemma ParseUint_base10_32_ok s v :
  ParseUint_base10 s 32 = (v, None) <->
  decimal_uint32 s /\ v = decimal_value s.
Proof.
  unfold ParseUint_base10, decimal_uint32, decimal_value.
  case_bool_decide as Hs.
  { split; [discriminate|]. intros [[? _] _]; contradiction. }
  change ((if 32 =? 0 then IntSize else 32)) with 32.
  change ((32 <? 0) || (64 <? 32)) with false. cbv iota.
  split.
  - intros Hl. apply ParseUint_loop_ok in Hl; [|change (2 ^ 32) with 4294967296; lia].
    destruct Hl as (Hd & -> & Hv). repeat split; auto; lia.
  - intros [(_ & Hd & Hv) ->].
    apply ParseUint_loop_digits; [change (2 ^ 32) with 4294967296; lia|assumption|lia].
Qed.

Lemma ParseUint_base10_32_err s :
  (exists v e, ParseUint_base10 s 32 = (v, Some e)) <-> ~ decimal_uint32 s.
Proof.
  destruct (ParseUint_base10 s 32) as [v [e|]] eqn:E.
  - split; [|eauto]. intros _ Hw.
    pose proof (proj2 (ParseUint_base10_32_ok s (decimal_value s)) (conj Hw eq_refl)) as Hok.
    rewrite E in Hok. discriminate Hok.
  - split.
    + intros (? & ? & [=]).
    + intros Hn. exfalso. apply Hn. apply (ParseUint_base10_32_ok s v). assumption.
Qed.

Lemma ParseUint_base10_32_range s v :
  ParseUint_base10 s 32 = (v, None) -> 0 <= v < 2 ^ 32.
Proof.
  intros H. apply ParseUint_base10_32_ok in H as [(Hs & Hd & Hv) ->].
  split; [|assumption].
  apply (decimal_step_mono (bytes s) 0); [lia|assumption].
Qed.

Lemma uint_small v : 0 <= v < 2 ^ 32 -> uint v = v.
Proof.
  intros H. unfold uint, uint_modulus, uint_size.
  change (2 ^ 64) with 18446744073709551616.
  change (2 ^ 32) with 4294967296 in H.
  apply Z.mod_small. lia.
Qed.

(** ** The handlers, by cases on the identity parameter *)

Lemma parse_id_cases id :
  (decimal_uint32 id /\
   ParseUint_base10 id 32 = (decimal_value id, None) /\
   uint (decimal_value id) = decimal_value id)
  \/ (~ decimal_uint32 id /\ exists v e, ParseUint_base10 id 32 = (v, Some e)).
Proof.
  destruct (decide (decimal_uint32 id)) as [Hw|Hw].
  - left. split; [assumption|].
    assert (Hp : ParseUint_base10 id 32 = (decimal_value id, None))
      by (apply ParseUint_base10_32_ok; auto).
    split; [assumption|].
    apply uint_small, (ParseUint_base10_32_range id); assumption.
  - right. split; [assumption|]. apply ParseUint_base10_32_err; assumption.
Qed.

Ltac parse_id id :=
  let Hw := fresh "Hw" in
  let Hp := fresh "Hp" in
  let Hu := fresh "Hu" in
  let v := fresh "v" in
  let e := fresh "e" in
  destruct (parse_id_cases id) as [(Hw & Hp & Hu)|(Hw & v & e & Hp)];
  rewrite Hp; [rewrite Hu|];
  (destruct (decide (decimal_uint32 id)); [|try contradiction]);
  try contradiction; try reflexivity.

Lemma alter_lookup_insert {A} (f : A -> A) (l : list A) (i : nat) x :
  l !! i = Some x -> alter f i l = <[i := f x]> l.
Proof.
  revert i. induction l as [|y l IH]; intros [|i] H; simpl in *;
    try discriminate.
  - injection H as ->. reflexivity.
  - f_equal. apply IH. assumption.
Qed.

Lemma getUser_eq id s :
  getUser id s =
  if decide (decimal_uint32 id) then
    match list_find (fun u => User.ID u = decimal_value id) (users s) with
    | Some (_, user) => (JSON StatusOK (UserBody user), s)
    | None => (JSON StatusNotFound (ErrorBody "User not found"), s)
    end
  else (JSON StatusBadRequest (ErrorBody "Invalid user ID"), s).
Proof. unfold getUser. parse_id id. Qed.

Lemma deleteUser_eq id s :
  deleteUser id s =
  if decide (decimal_uint32 id) then
    match list_find (fun u => User.ID u = decimal_value id) (users s) with
    | Some (i, _) =>
        (JSON StatusOK (MessageBody "User deleted successfully"),
         set_users (delete i (users s)) s)
    | None => (JSON StatusNotFound (ErrorBody "User not found"), s)
    end
  else (JSON StatusBadRequest (ErrorBody "Invalid user ID"), s).
Proof. unfold deleteUser. parse_id id. Qed.

Lemma updateUser_eq id bind now s :
  updateUser id bind now s =
  if decide (decimal_uint32 id) then
    match bind with
    | BindError msg => (JSON StatusBadRequest (ErrorBody msg), s)
    | Bound req =>
        match list_find (fun u => User.ID u = decimal_value id) (users s) with
        | Some (i, user) =>
            if existsb (other_user_clash req user) (users s)
            then (JSON StatusConflict
                    (ErrorBody "Username or email already exists"), s)
            else
              let user' :=
                User.mk (User.ID user) (Username req) (Email req)
                        (User.CreatedAt user) now in
              (JSON StatusOK (UserBody user'),
               set_users (<[i := user']> (users s)) s)
        | None => (JSON StatusNotFound (ErrorBody "User not found"), s)
        end
    end
  else (JSON StatusBadRequest (ErrorBody "Invalid user ID"), s).
Proof.
  unfold updateUser. parse_id id.
  destruct bind as [msg|req]; [reflexivity|].
  destruct (list_find _ (users s)) as [[i user]|] eqn:Hf; [|reflexivity].
  destruct (existsb _ _); [reflexivity|].
  apply list_find_Some in Hf as (Hi & _ & _).
  cbn [set_users users posts userCounter postCounter].
  rewrite !list_alter_alter_eq.
  rewrite (alter_lookup_insert _ _ _ _ Hi).
  rewrite list_lookup_total_insert_eq by (eapply lookup_lt_Some; eassumption).
  reflexivity.
Qed.

Lemma getPost_eq id s :
  getPost id s =
  if decide (decimal_uint32 id) then
    match list_find (fun p => Post.ID p = decimal_value id) (posts s) with
    | Some (_, post) => (JSON StatusOK (PostBody post), s)
    | None => (JSON StatusNotFound (ErrorBody "Post not found"), s)
    end
  else (JSON StatusBadRequest (ErrorBody "Invalid post ID"), s).
Proof. unfold getPost. parse_id id. Qed.

Lemma deletePost_eq id s :
  deletePost id s =
  if decide (decimal_uint32 id) then
    match list_find (fun p => Post.ID p = decimal_value id) (posts s) with
    | Some (i, _) =>
        (JSON StatusOK (MessageBody "Post deleted successfully"),
         set_posts (delete i (posts s)) s)
    | None => (JSON StatusNotFound (ErrorBody "Post not found"), s)
    end
  else (JSON StatusBadRequest (ErrorBody "Invalid post ID"), s).
Proof. unfold deletePost. parse_id id. Qed.

Lemma updatePost_eq id bind now s :
  updatePost id bind now s =
  if decide (decimal_uint32 id) then
    match bind with
    | BindError msg => (JSON StatusBadRequest (ErrorBody msg), s)
    | Bound req =>
        match list_find (fun p => Post.ID p = decimal_value id) (posts s) with
        | Some (i, post) =>
            let post' :=
              Post.mk (Post.ID post) (Title req) (Content req)
                      (Post.AuthorID post) (Post.Author post)
                      (Post.CreatedAt post) now in
            (JSON StatusOK (PostBody post'),
             set_posts (<[i := post']> (posts s)) s)
        | None => (JSON StatusNotFound (ErrorBody "Post not found"), s)
        end
    end
  else (JSON StatusBadRequest (ErrorBody "Invalid post ID"), s).
Proof.
  unfold updatePost. parse_id id.
  destruct bind as [msg|req]; [reflexivity|].
  destruct (list_find _ (posts s)) as [[i post]|] eqn:Hf; [|reflexivity].
  apply list_find_Some in Hf as (Hi & _ & _).
  cbn [set_posts users posts userCounter postCounter].
  rewrite !list_alter_alter_eq.
  rewrite (alter_lookup_insert _ _ _ _ Hi).
  rewrite list_lookup_total_insert_eq by (eapply lookup_lt_Some; eassumption).
  reflexivity.
Qed.

(** ** Looking entities up *)

Lemma find_user_None id (l : list User.t) :
  list_find (fun u => User.ID u = id) l = None <->
  ~ exists u, u ∈ l /\ User.ID u = id.
Proof.
  rewrite list_find_None, Forall_forall. split.
  - intros H (u & Hu & Hid). exact (H u Hu Hid).
  - intros H u Hu Hid. apply H. eauto.
Qed.

Lemma find_post_None id (l : list Post.t) :
  list_find (fun p => Post.ID p = id) l = None <->
  ~ exists p, p ∈ l /\ Post.ID p = id.
Proof.
  rewrite list_find_None, Forall_forall. split.
  - intros H (u & Hu & Hid). exact (H u Hu Hid).
  - intros H u Hu Hid. apply H. eauto.
Qed.

Lemma existsb_elem_of {A} (f : A -> bool) (l : list A) :
  existsb f l = true <-> exists x, x ∈ l /\ f x = true.
Proof.
  rewrite existsb_exists. split; intros (x & Hx & Hf); exists x;
    (split; [apply list_elem_of_In; assumption|assumption]).
Qed.

Lemma user_clash_true req u :
  user_clash req u = true <->
  User.Username u = Username req \/ User.Email u = Email req.
Proof.
  unfold user_clash.
  rewrite orb_true_iff, !bool_decide_eq_true. reflexivity.
Qed.

Lemma other_user_clash_true req user other :
  other_user_clash req user other = true <->
  User.ID other <> User.ID user /\
  (User.Username other = Username req \/ User.Email other = Email req).
Proof.
  unfold other_user_clash.
  rewrite andb_true_iff, orb_true_iff, !bool_decide_eq_true. reflexivity.
Qed.

(** ** Creating users *)

(** C2.  A create request whose username or email equals that of an existing
    user is answered with 409 Conflict, and nothing changes: neither the
    collections nor the counters.  One matching field is enough. *)
Theorem createUser_conflict s req :
  (exists u, u ∈ users s /\
     (User.Username u = Username req \/ User.Email u = Email req)) ->
  createUser (Bound req) s =
    (JSON StatusConflict (ErrorBody "User already exists"), s).
Proof.
  intros (u & Hu & Hclash). unfold createUser.
  assert (E : existsb (user_clash req) (users s) = true).
  { apply existsb_elem_of. exists u. split; [assumption|].
    apply user_clash_true. assumption. }
  rewrite E. reflexivity.
Qed.

Lemma createUser_conflict_witness :
  createUser (Bound {| Username := "alice"; Email := "other@x.com" |})
             two_users =
    (JSON StatusConflict (ErrorBody "User already exists"), two_users).
Proof.
  apply createUser_conflict.
  exists (User.mk 1 "alice" "a@x.com" zero_Time zero_Time).
  split; [|left; reflexivity].
  vm_compute. apply list_elem_of_here.
Defined.

(** The other outcome of a bound create request: no clash, 201 Created. *)
Lemma createUser_created s req :
  ~ (exists u, u ∈ users s /\
       (User.Username u = Username req \/ User.Email u = Email req)) ->
  createUser (Bound req) s =
    (JSON StatusCreated
       (UserBody (User.mk (userCounter s) (Username req) (Email req)
                          zero_Time zero_Time)),
     {| users := users s ++
          [User.mk (userCounter s) (Username req) (Email req)
                   zero_Time zero_Time];
        posts := posts s;
        userCounter := uint_incr (userCounter s);
        postCounter := postCounter s |}).
Proof.
  intros Hn. unfold createUser.
  destruct (existsb (user_clash req) (users s)) eqn:E; [|reflexivity].
  exfalso. apply Hn. apply existsb_elem_of in E as (u & Hu & Hc).
  exists u. split; [assumption|]. apply user_clash_true. assumption.
Qed.

(** Matching is exact: a username that differs in case does not clash. *)
Example createUser_case_sensitive :
  status (fst (createUser
    (Bound {| Username := "Alice"; Email := "A@x.com" |}) two_users))
  = StatusCreated.
Proof. vm_compute. reflexivity. Qed.

(** Whatever the clock reads, a created user carries the zero time in both
    timestamp fields: [createUser] never calls [time.Now()]. *)
Lemma createUser_timestamps bind s u s' :
  createUser bind s = (JSON StatusCreated (UserBody u), s') ->
  User.CreatedAt u = zero_Time /\ User.UpdatedAt u = zero_Time /\
  last (users s') = Some u.
Proof.
  unfold createUser. destruct bind as [msg|req]; [discriminate|].
  destruct (existsb _ _); [discriminate|].
  intros [= <- <-]. cbn. rewrite last_snoc. auto.
Qed.

(** C3.  [POST /users] for alice on the fresh server, served at clock
    reading 1000: the user returned and stored has [CreatedAt] and
    [UpdatedAt] at the zero time, not at 1000. *)
Theorem createUser_timestamps_not_set :
  let now : Time := 1000 in
  let created := User.mk 1 "alice" "a@x.com" zero_Time zero_Time in
  handle now (POST_users (Bound alice)) init_state =
    (JSON StatusCreated (UserBody created),
     {| users := [created]; posts := [];
        userCounter := 2; postCounter := 1 |})
  /\ User.CreatedAt created <> now /\ User.UpdatedAt created <> now.
Proof. vm_compute. repeat split; discriminate. Qed.

(** ** Creating posts *)

(** C4.  A bound create request for a post is always answered with 201; the
    author of the post is the identity of the first user of the user
    collection, or 1 when there is no user.  No request is answered with
    409. *)
Theorem createPost_author s req :
  exists p,
    createPost (Bound req) s =
      (JSON StatusCreated (PostBody p),
       {| users := users s; posts := posts s ++ [p];
          userCounter := userCounter s;
          postCounter := uint_incr (postCounter s) |})
    /\ Post.AuthorID p =
         match users s with [] => 1 | first :: _ => User.ID first end
    /\ Post.ID p = postCounter s
    /\ Post.Title p = Title req /\ Post.Content p = Content req
    /\ forall bind, status (fst (createPost bind s)) <> StatusConflict.
Proof.
  eexists. split; [reflexivity|]. cbn.
  split; [destruct (users s); reflexivity|].
  repeat split. intros [msg|req']; cbn; discriminate.
Qed.

(** The scenario of the specification: a post created before any user
    exists has author 1; once users 1 and 2 exist and user 1 is deleted, the
    author is the first user left, 2, also after a third user was added. *)
Example createPost_scenario :
  omap (fun r => match body r with
                 | PostBody p => Some (Post.ID p, Post.AuthorID p)
                 | _ => None
                 end)
    (fst (run
      [(10, POST_posts (Bound hello));
       (11, POST_users (Bound alice)); (12, POST_users (Bound bob));
       (13, DELETE_users_id "1"); (14, POST_posts (Bound hello));
       (15, POST_users (Bound alice)); (16, POST_posts (Bound hello))]
      init_state))
  = [(1, 1); (2, 2); (3, 2)].
Proof. vm_compute. reflexivity. Qed.

(** ** Updating *)

(** C5.  An update of a user identity that no user carries is answered with
    404 Not Found, and nothing changes. *)
Theorem updateUser_absent id req now s :
  decimal_uint32 id ->
  ~ user_present (decimal_value id) s ->
  updateUser id (Bound req) now s =
    (JSON StatusNotFound (ErrorBody "User not found"), s).
Proof.
  intros Hw Habs. rewrite updateUser_eq.
  destruct (decide (decimal_uint32 id)); [|contradiction].
  apply find_user_None in Habs. rewrite Habs. reflexivity.
Qed.

Lemma updateUser_absent_witness :
  updateUser "7" (Bound alice) 30 two_users =
    (JSON StatusNotFound (ErrorBody "User not found"), two_users).
Proof.
  apply updateUser_absent.
  - vm_compute. repeat split; [discriminate|repeat constructor; discriminate].
  - apply (proj1 (find_user_None _ _)). vm_compute. reflexivity.
Defined.

(** C8.  A successful update of a post rewrites one entry of the post
    collection: its title, content and [UpdatedAt] are the new ones, its
    identity, author and [CreatedAt] are kept, every other entry and
    everything else in the state is as before. *)
Theorem updatePost_frame id bind now s r s' :
  updatePost id bind now s = (r, s') ->
  status r = StatusOK ->
  exists req (i : nat) old p,
    bind = Bound req /\ body r = PostBody p
    /\ posts s !! i = Some old /\ Post.ID old = decimal_value id
    /\ posts s' !! i = Some p
    /\ Post.ID p = Post.ID old
    /\ Post.AuthorID p = Post.AuthorID old
    /\ Post.Author p = Post.Author old
    /\ Post.CreatedAt p = Post.CreatedAt old
    /\ Post.Title p = Title req /\ Post.Content p = Content req
    /\ Post.UpdatedAt p = now
    /\ (forall j : nat, j <> i -> posts s' !! j = posts s !! j)
    /\ length (posts s') = length (posts s)
    /\ users s' = users s /\ userCounter s' = userCounter s
    /\ postCounter s' = postCounter s.
Proof.
  rewrite updatePost_eq.
  destruct (decide (decimal_uint32 id)); [|intros [= <- <-]; discriminate].
  destruct bind as [msg|req]; [intros [= <- <-]; discriminate|].
  destruct (list_find _ (posts s)) as [[i old]|] eqn:Hf;
    [|intros [= <- <-]; discriminate].
  apply list_find_Some in Hf as (Hi & Hid & _).
  cbv zeta. intros [= <- <-] _.
  exists req, i, old. eexists. split; [reflexivity|]. split; [reflexivity|].
  cbn. repeat split; try assumption.
  - apply list_lookup_insert_eq. eapply lookup_lt_Some. eassumption.
  - intros j Hj. apply list_lookup_insert_ne. congruence.
  - apply length_insert.
Qed.

Lemma updatePost_frame_witness :
  let bind := Bound {| Title := "T2"; Content := "C2" |} in
  let out := updatePost "1" bind 50 one_post in
  status (fst out) = StatusOK /\
  exists req (i : nat) old p,
    bind = Bound req /\ body (fst out) = PostBody p
    /\ posts one_post !! i = Some old /\ Post.ID old = decimal_value "1"
    /\ posts (snd out) !! i = Some p
    /\ Post.ID p = Post.ID old
    /\ Post.AuthorID p = Post.AuthorID old
    /\ Post.Author p = Post.Author old
    /\ Post.CreatedAt p = Post.CreatedAt old
    /\ Post.Title p = Title req /\ Post.Content p = Content req
    /\ Post.UpdatedAt p = 50
    /\ (forall j : nat, j <> i -> posts (snd out) !! j = posts one_post !! j)
    /\ length (posts (snd out)) = length (posts one_post)
    /\ users (snd out) = users one_post
    /\ userCounter (snd out) = userCounter one_post
    /\ postCounter (snd out) = postCounter one_post.
Proof.
  intros bind out. split; [reflexivity|].
  apply (updatePost_frame "1" bind 50 one_post (fst out) (snd out));
    [apply surjective_pairing|reflexivity].
Defined.

(** ** The two repositories do not touch each other *)

Lemma user_route_keeps_posts now r s :
  user_route r = true ->
  posts (snd (handle now r s)) = posts s
  /\ postCounter (snd (handle now r s)) = postCounter s.
Proof.
  destruct r as [|b|id|id b|id| |b|id|id b|id]; try discriminate; intros _;
    cbn [handle].
  - split; reflexivity.
  - unfold createUser. destruct b; [split; reflexivity|].
    destruct (existsb _ _); split; reflexivity.
  - rewrite getUser_eq. repeat case_match; split; reflexivity.
  - rewrite updateUser_eq. repeat case_match; split; reflexivity.
  - rewrite deleteUser_eq. repeat case_match; split; reflexivity.
Qed.

Lemma post_route_keeps_users now r s :
  user_route r = false ->
  users (snd (handle now r s)) = users s
  /\ userCounter (snd (handle now r s)) = userCounter s.
Proof.
  destruct r as [|b|id|id b|id| |b|id|id b|id]; try discriminate; intros _;
    cbn [handle].
  - split; reflexivity.
  - unfold createPost. destruct b; split; reflexivity.
  - rewrite getPost_eq. repeat case_match; split; reflexivity.
  - rewrite updatePost_eq. repeat case_match; split; reflexivity.
  - rewrite deletePost_eq. repeat case_match; split; reflexivity.
Qed.

(** C10.  A request on a user route leaves the post collection and the post
    counter as they were; a request on a post route leaves the user
    collection and the user counter as they were (creating a post only reads
    the user collection).  Deleting a user keeps every post, also those
    whose author is the deleted user. *)
Theorem repositories_disjoint now r s :
  (if user_route r
   then posts (snd (handle now r s)) = posts s
        /\ postCounter (snd (handle now r s)) = postCounter s
   else users (snd (handle now r s)) = users s
        /\ userCounter (snd (handle now r s)) = userCounter s)
  /\ forall id, posts (snd (deleteUser id s)) = posts s.
Proof.
  split.
  - destruct (user_route r) eqn:E.
    + apply user_route_keeps_posts. assumption.
    + apply post_route_keeps_users. assumption.
  - intros id.
    apply (user_route_keeps_posts 0 (DELETE_users_id id) s). reflexivity.
Qed.

(** ** Malformed and absent identities *)

(** C9.  On every by-id route, a parameter that is not a decimal unsigned
    32-bit integer is answered with 400 whatever the body and the state are,
    and the state is kept.  A 404 is only ever sent for a well-formed
    parameter that names no entity of the repository, and it is sent for
    every such parameter once the body (where there is one) is bound.  A
    well-formed parameter with a bound body is never answered with 400. *)
Theorem id_parameter_errors now r id s :
  id_param r = Some id ->
  (~ decimal_uint32 id ->
     status (fst (handle now r s)) = StatusBadRequest
     /\ snd (handle now r s) = s)
  /\ (status (fst (handle now r s)) = StatusNotFound ->
        decimal_uint32 id /\ ~ entity_present r (decimal_value id) s)
  /\ (decimal_uint32 id -> body_bound r ->
        ~ entity_present r (decimal_value id) s ->
        status (fst (handle now r s)) = StatusNotFound
        /\ snd (handle now r s) = s)
  /\ (decimal_uint32 id -> body_bound r ->
        status (fst (handle now r s)) <> StatusBadRequest)
  /\ StatusBadRequest <> StatusNotFound.
Proof.
  intros Hid.
  destruct r as [|b|id'|id' b|id'| |b|id'|id' b|id']; try discriminate Hid;
    injection Hid as ->; cbn [handle entity_present user_route body_bound];
    [rewrite getUser_eq|rewrite updateUser_eq|rewrite deleteUser_eq
    |rewrite getPost_eq|rewrite updatePost_eq|rewrite deletePost_eq];
    destruct (decide (decimal_uint32 id)) as [Hw|Hw];
    try (destruct b as [msg|req]);
    try match goal with
        | |- context [list_find ?P ?l] =>
            destruct (list_find P l) as [[i x]|] eqn:Hf;
            [apply list_find_Some in Hf as (Hi & Hx & _);
             apply list_elem_of_lookup_2 in Hi
            |first [apply find_user_None in Hf|apply find_post_None in Hf]]
        end;
    try (destruct (existsb _ _));
    (split; [|split; [|split; [|split]]]).
  all: try discriminate.
  all: try (intros Hn; first [contradiction|split; reflexivity]).
  all: try (cbn; intros Hs; first [discriminate Hs|split; assumption]).
  all: try (intros _ Hb; first [contradiction|cbn; discriminate]).
  all: intros _ Hb Hn;
       first [contradiction|split; reflexivity
             |exfalso; apply Hn; eexists; split; eassumption].
Qed.

Lemma id_parameter_errors_witness :
  status (fst (handle 30 (DELETE_users_id "1x") two_users)) = StatusBadRequest
  /\ snd (handle 30 (DELETE_users_id "1x") two_users) = two_users.
Proof.
  apply (id_parameter_errors 30 (DELETE_users_id "1x") "1x" two_users).
  - reflexivity.
  - vm_compute. intros (_ & Hd & _).
    inversion Hd as [|? ? _ Hd']. inversion Hd' as [|? ? Hx _].
    destruct Hx as [_ Hx]. apply Hx. reflexivity.
Defined.

(** ** The conflict check of an update *)

(** C6.  An update of a present user is answered with 409 exactly when a
    user with another identity has the requested username or the requested
    email; otherwise it is answered with 200.  A 409 changes nothing.  In a
    collection with unique usernames and emails, updating a user to the
    username and email it has is answered with 200. *)
Theorem updateUser_conflict_others id req now s :
  decimal_uint32 id ->
  user_present (decimal_value id) s ->
  (status (fst (updateUser id (Bound req) now s)) = StatusConflict <->
     exists other, other ∈ users s
       /\ User.ID other <> decimal_value id
       /\ (User.Username other = Username req
           \/ User.Email other = Email req))
  /\ (status (fst (updateUser id (Bound req) now s)) = StatusConflict
      \/ status (fst (updateUser id (Bound req) now s)) = StatusOK)
  /\ (status (fst (updateUser id (Bound req) now s)) = StatusConflict ->
        snd (updateUser id (Bound req) now s) = s)
  /\ (unique_users (users s) ->
      (exists u, u ∈ users s /\ User.ID u = decimal_value id
         /\ Username req = User.Username u /\ Email req = User.Email u) ->
      status (fst (updateUser id (Bound req) now s)) = StatusOK).
Proof.
  intros Hw Hpres. rewrite updateUser_eq.
  destruct (decide (decimal_uint32 id)); [|contradiction].
  destruct (list_find _ (users s)) as [[i user]|] eqn:Hf;
    [|apply find_user_None in Hf; contradiction].
  apply list_find_Some in Hf as (Hi & Hid & _).
  assert (Hex : existsb (other_user_clash req user) (users s) = true <->
     exists other, other ∈ users s
       /\ User.ID other <> decimal_value id
       /\ (User.Username other = Username req
           \/ User.Email other = Email req)).
  { rewrite existsb_elem_of. split; intros (o & Ho & Hc); exists o;
      (split; [assumption|]).
    - apply other_user_clash_true in Hc. rewrite Hid in Hc. assumption.
    - apply other_user_clash_true. rewrite Hid. assumption. }
  destruct (existsb (other_user_clash req user) (users s)) eqn:E; cbn.
  - split; [split; [intros _; apply Hex; reflexivity|reflexivity]|].
    split; [left; reflexivity|]. split; [reflexivity|].
    intros Huniq (u & Hu & Huid & Hun & Hue). exfalso.
    destruct (proj1 Hex eq_refl) as (o & Ho & Hoid & Hclash).
    apply list_elem_of_lookup_1 in Hu as [j Hj].
    apply list_elem_of_lookup_1 in Ho as [k Hk].
    assert (k = j) as ->.
    { apply (Huniq k j o u Hk Hj). rewrite <- Hun, <- Hue. assumption. }
    congruence.
  - split; [split; [discriminate|intros H; apply Hex in H; discriminate]|].
    split; [right; reflexivity|]. split; [discriminate|]. reflexivity.
Qed.

Lemma updateUser_conflict_others_witness :
  status (fst (updateUser "1" (Bound alice) 30 two_users)) = StatusOK.
Proof.
  apply (updateUser_conflict_others "1" alice 30 two_users).
  - vm_compute. repeat split; [discriminate|repeat constructor; discriminate].
  - exists (User.mk 1 "alice" "a@x.com" zero_Time zero_Time).
    split; [vm_compute; apply list_elem_of_here|reflexivity].
  - intros i j u v. vm_compute.
    destruct i as [|[|i]], j as [|[|j]]; try discriminate; try reflexivity;
      intros [= <-] [= <-] [H|H]; discriminate H.
  - exists (User.mk 1 "alice" "a@x.com" zero_Time zero_Time).
    split; [vm_compute; apply list_elem_of_here|repeat split].
Defined.

(** ** Update, then get *)

(** C7.  After a successful update of a user, getting the same identity
    returns the user the update returned: it carries the new username and
    email, the [CreatedAt] it had before, and as [UpdatedAt] the clock
    reading of the update.  That is later than the previous [UpdatedAt]
    exactly when the clock reading is. *)
Theorem updateUser_then_getUser id bind now s r s' :
  updateUser id bind now s = (r, s') ->
  status r = StatusOK ->
  exists req old new,
    bind = Bound req
    /\ getUser id s = (JSON StatusOK (UserBody old), s)
    /\ r = JSON StatusOK (UserBody new)
    /\ getUser id s' = (JSON StatusOK (UserBody new), s')
    /\ User.ID new = User.ID old
    /\ User.Username new = Username req
    /\ User.Email new = Email req
    /\ User.CreatedAt new = User.CreatedAt old
    /\ User.UpdatedAt new = now
    /\ (User.UpdatedAt old < User.UpdatedAt new <-> User.UpdatedAt old < now).
Proof.
  rewrite updateUser_eq, !getUser_eq.
  destruct (decide (decimal_uint32 id)); [|intros [= <- <-]; discriminate].
  destruct bind as [msg|req]; [intros [= <- <-]; discriminate|].
  destruct (list_find _ (users s)) as [[i old]|] eqn:Hf;
    [|intros [= <- <-]; discriminate].
  destruct (existsb _ _); [intros [= <- <-]; discriminate|].
  cbv zeta. intros [= <- <-] _.
  exists req, old. eexists. split; [reflexivity|]. split; [reflexivity|].
  split; [reflexivity|].
  apply list_find_Some in Hf as (Hi & Hid & Hfirst).
  split.
  - cbn [users set_users].
    match goal with
    | |- context [list_find ?P ?l] =>
        assert (Hf' : list_find P l = Some (i,
          User.mk (User.ID old) (Username req) (Email req)
                  (User.CreatedAt old) now))
    end.
    { apply list_find_Some. split; [|split].
      - apply list_lookup_insert_eq. eapply lookup_lt_Some. eassumption.
      - exact Hid.
      - intros j y Hj Hlt. rewrite list_lookup_insert_ne in Hj by lia.
        eapply Hfirst; eassumption. }
    rewrite Hf'. reflexivity.
  - cbn. repeat split; auto.
Qed.

Lemma updateUser_then_getUser_witness :
  let bind := Bound {| Username := "al"; Email := "al@x.com" |} in
  let out := updateUser "1" bind 30 two_users in
  status (fst out) = StatusOK /\
  exists req old new,
    bind = Bound req
    /\ getUser "1" two_users = (JSON StatusOK (UserBody old), two_users)
    /\ fst out = JSON StatusOK (UserBody new)
    /\ getUser "1" (snd out) = (JSON StatusOK (UserBody new), snd out)
    /\ User.ID new = User.ID old
    /\ User.Username new = Username req
    /\ User.Email new = Email req
    /\ User.CreatedAt new = User.CreatedAt old
    /\ User.UpdatedAt new = 30
    /\ (User.UpdatedAt old < User.UpdatedAt new <-> User.UpdatedAt old < 30).
Proof.
  intros bind out. split; [reflexivity|].
  apply (updateUser_then_getUser "1" bind 30 two_users (fst out) (snd out));
    [apply surjective_pairing|reflexivity].
Defined.

(** C7, as stated, fails when the clock reads the same at two updates: the
    user updated at clock reading 200 is updated again at 200, the update
    succeeds, and [UpdatedAt] is 200 before and after. *)
Lemma updatedAt_not_strictly_later :
  let out :=
    updateUser "1" (Bound {| Username := "al"; Email := "al@x.com" |}) 200
               updated_once in
  exists old new,
    getUser "1" updated_once = (JSON StatusOK (UserBody old), updated_once)
    /\ fst out = JSON StatusOK (UserBody new)
    /\ getUser "1" (snd out) = (JSON StatusOK (UserBody new), snd out)
    /\ User.Username new = "al" /\ User.Email new = "al@x.com"
    /\ User.CreatedAt new = User.CreatedAt old
    /\ ~ User.UpdatedAt old < User.UpdatedAt new.
Proof.
  exists (User.mk 1 "alice" "a@x.com" zero_Time 200),
         (User.mk 1 "al" "al@x.com" zero_Time 200).
  vm_compute. repeat split; intros [=].
Qed.

(** ** Identities handed out along a run *)

Lemma uint_incr_small c :
  0 <= c -> c + 1 < uint_modulus -> uint_incr c = c + 1.
Proof. intros H0 H1. unfold uint_incr, uint. apply Z.mod_small. lia. Qed.

Lemma run_cons now r rest s :
  run ((now, r) :: rest) s =
    (fst (handle now r s) :: fst (run rest (snd (handle now r s))),
     snd (run rest (snd (handle now r s)))).
Proof.
  cbn [run]. destruct (handle now r s) as [resp s1]. cbn [fst snd].
  destruct (run rest s1) as [resps s2]. reflexivity.
Qed.




(** One counter and the identities read off the responses, given what one
    request does to them. *)
Section Counter.

Variable counter : State -> Z.
Variable created : Response -> option Z.

Hypothesis handle_counter : forall now r s,
  match created (fst (handle now r s)) with
  | Some id =>
      id = counter s
      /\ counter (snd (handle now r s)) = uint_incr (counter s)
  | None => counter (snd (handle now r s)) = counter s
  end.


End Counter.

Ltac by_cases :=
  repeat case_match; first [reflexivity|discriminate|simplify_eq].

Lemma handle_userCounter now r s :
  match created_user_id (fst (handle now r s)) with
  | Some id =>
      id = userCounter s
      /\ userCounter (snd (handle now r s)) = uint_incr (userCounter s)
  | None => userCounter (snd (handle now r s)) = userCounter s
  end.
Proof.
  destruct r as [|b|id|id b|id| |b|id|id b|id]; cbn [handle].
  - reflexivity.
  - unfold createUser. destruct b; [reflexivity|].
    destruct (existsb _ _); [reflexivity|]. cbn.
    change (bool_decide (StatusCreated = StatusCreated)) with true.
    cbv iota. auto.
  - rewrite getUser_eq. by_cases.
  - rewrite updateUser_eq. by_cases.
  - rewrite deleteUser_eq. by_cases.
  - reflexivity.
  - unfold createPost. destruct b; reflexivity.
  - rewrite getPost_eq. by_cases.
  - rewrite updatePost_eq. by_cases.
  - rewrite deletePost_eq. by_cases.
Qed.

Lemma handle_postCounter now r s :
  match created_post_id (fst (handle now r s)) with
  | Some id =>
      id = postCounter s
      /\ postCounter (snd (handle now r s)) = uint_incr (postCounter s)
  | None => postCounter (snd (handle now r s)) = postCounter s
  end.
Proof.
  destruct r as [|b|id|id b|id| |b|id|id b|id]; cbn [handle].
  - reflexivity.
  - unfold createUser. destruct b; [reflexivity|].
    destruct (existsb _ _); reflexivity.
  - rewrite getUser_eq. by_cases.
  - rewrite updateUser_eq. by_cases.
  - rewrite deleteUser_eq. by_cases.
  - reflexivity.
  - unfold createPost. destruct b; [reflexivity|]. cbn.
    change (bool_decide (StatusCreated = StatusCreated)) with true.
    cbv iota. auto.
  - rewrite getPost_eq. by_cases.
  - rewrite updatePost_eq. by_cases.
  - rewrite deletePost_eq. by_cases.
Qed.



(** *** Wrap-around of the counter *)









(** ** What the user routes keep in order *)

Lemma users_ok_init : users_ok init_state.
Proof.
  split; cbn.
  - split; [lia|reflexivity].
  - intros u Hu. apply elem_of_nil in Hu. contradiction.
  - intros i j u v Hi. rewrite lookup_nil in Hi. discriminate.
  - intros i j u v Hi. rewrite lookup_nil in Hi. discriminate.
Qed.

Lemma users_ok_ext s s' :
  users s' = users s -> userCounter s' = userCounter s ->
  users_ok s -> users_ok s'.
Proof.
  intros Hu Hc [H1 H2 H3 H4]. split; rewrite ?Hu, ?Hc; assumption.
Qed.

Lemma users_ok_createUser bind s :
  users_ok s -> userCounter s + 1 < uint_modulus ->
  users_ok (snd (createUser bind s)).
Proof.
  intros Hok Hlt. unfold createUser.
  destruct bind as [msg|req]; [assumption|].
  destruct (existsb (user_clash req) (users s)) eqn:E; [assumption|].
  destruct Hok as [Hc Hbelow Hids Huniq].
  assert (Hfresh : forall u, u ∈ users s ->
            ~ (User.Username u = Username req \/ User.Email u = Email req)).
  { intros u Hu Hclash.
    assert (existsb (user_clash req) (users s) = true); [|congruence].
    apply existsb_elem_of. exists u. split; [assumption|].
    apply user_clash_true. assumption. }
  split; cbn [snd users userCounter set_users set_userCounter].
  - rewrite uint_incr_small by lia. lia.
  - rewrite uint_incr_small by lia. intros u Hu.
    apply elem_of_app in Hu as [Hu|Hu].
    + specialize (Hbelow u Hu). lia.
    + apply list_elem_of_singleton in Hu as ->. cbn. lia.
  - intros i j u v Hi Hj Heq.
    apply lookup_snoc_Some in Hi as [[Hil Hi]|[-> <-]];
      apply lookup_snoc_Some in Hj as [[Hjl Hj]|[-> <-]].
    + eapply Hids; eassumption.
    + apply list_elem_of_lookup_2 in Hi. specialize (Hbelow u Hi).
      cbn in Heq. lia.
    + apply list_elem_of_lookup_2 in Hj. specialize (Hbelow v Hj).
      cbn in Heq. lia.
    + reflexivity.
  - intros i j u v Hi Hj Hclash.
    apply lookup_snoc_Some in Hi as [[Hil Hi]|[-> <-]];
      apply lookup_snoc_Some in Hj as [[Hjl Hj]|[-> <-]].
    + eapply Huniq; eassumption.
    + apply list_elem_of_lookup_2 in Hi. exfalso.
      apply (Hfresh u Hi). exact Hclash.
    + apply list_elem_of_lookup_2 in Hj. exfalso.
      apply (Hfresh v Hj). cbn in Hclash. destruct Hclash; auto.
    + reflexivity.
Qed.

Lemma users_ok_updateUser id bind now s :
  users_ok s -> users_ok (snd (updateUser id bind now s)).
Proof.
  intros Hok. rewrite updateUser_eq.
  destruct (decide (decimal_uint32 id)); [|assumption].
  destruct bind as [msg|req]; [assumption|].
  destruct (list_find _ (users s)) as [[i user]|] eqn:Hf; [|assumption].
  destruct (existsb (other_user_clash req user) (users s)) eqn:E;
    [assumption|].
  apply list_find_Some in Hf as (Hi & _ & _).
  destruct Hok as [Hc Hbelow Hids Huniq].
  assert (Hother : forall (k : nat) z, users s !! k = Some z -> k <> i ->
            ~ (User.Username z = Username req \/ User.Email z = Email req)).
  { intros k z Hk Hne Hclash.
    assert (existsb (other_user_clash req user) (users s) = true);
      [|congruence].
    apply existsb_elem_of. exists z.
    split; [eapply list_elem_of_lookup_2; eassumption|].
    apply other_user_clash_true. split; [|assumption].
    intros Heq. apply Hne. eapply Hids; eassumption. }
  cbv zeta. split; cbn [snd users userCounter set_users].
  - assumption.
  - intros u Hu. apply list_elem_of_lookup_1 in Hu as [k Hk].
    apply list_lookup_insert_Some in Hk as [(<- & <- & _)|[_ Hk]].
    + cbn. apply Hbelow. eapply list_elem_of_lookup_2; eassumption.
    + apply Hbelow. eapply list_elem_of_lookup_2; eassumption.
  - intros j k u v Hj Hk Heq.
    apply list_lookup_insert_Some in Hj as [(<- & <- & _)|[Hji Hj]];
      apply list_lookup_insert_Some in Hk as [(Hik & <- & _)|[Hki Hk]];
      cbn in Heq.
    + assumption.
    + eapply Hids; eassumption.
    + subst k. eapply Hids; eassumption.
    + eapply Hids; eassumption.
  - intros j k u v Hj Hk Hclash.
    apply list_lookup_insert_Some in Hj as [(<- & <- & _)|[Hji Hj]];
      apply list_lookup_insert_Some in Hk as [(Hik & <- & _)|[Hki Hk]];
      cbn in Hclash.
    + assumption.
    + exfalso. apply (Hother k v Hk); [congruence|].
      destruct Hclash; auto.
    + exfalso. apply (Hother j u Hj); [congruence|]. exact Hclash.
    + eapply Huniq; eassumption.
Qed.

Lemma delete_index_inj (i j k : nat) :
  (if decide (j < i)%nat then j else S j)
  = (if decide (k < i)%nat then k else S k) -> j = k.
Proof. repeat case_decide; lia. Qed.

Lemma users_ok_deleteUser id s :
  users_ok s -> users_ok (snd (deleteUser id s)).
Proof.
  intros Hok. rewrite deleteUser_eq.
  destruct (decide (decimal_uint32 id)); [|assumption].
  destruct (list_find _ (users s)) as [[i user]|] eqn:Hf; [|assumption].
  destruct Hok as [Hc Hbelow Hids Huniq].
  split; cbn [snd users userCounter set_users].
  - assumption.
  - intros u Hu. apply Hbelow. eapply list_elem_of_delete_inv. eassumption.
  - intros j k u v Hj Hk Heq. rewrite list_lookup_delete in Hj, Hk.
    apply (delete_index_inj i). eapply Hids; eassumption.
  - intros j k u v Hj Hk Heq. rewrite list_lookup_delete in Hj, Hk.
    apply (delete_index_inj i). eapply Huniq; eassumption.
Qed.

(** Every request keeps the user repository in order, unless it is the
    create that makes the counter wrap. *)
Lemma users_ok_handle now r s :
  users_ok s -> userCounter s + 1 < uint_modulus ->
  users_ok (snd (handle now r s)).
Proof.
  intros Hok Hlt.
  destruct (user_route r) eqn:E.
  - destruct r as [|b|id|id b|id| |b|id|id b|id]; try discriminate E;
      cbn [handle].
    + assumption.
    + apply users_ok_createUser; assumption.
    + rewrite getUser_eq. repeat case_match; assumption.
    + apply users_ok_updateUser; assumption.
    + apply users_ok_deleteUser; assumption.
  - destruct (post_route_keeps_users now r s E) as [Hu Hc].
    eapply users_ok_ext; eassumption.
Qed.

Lemma handle_userCounter_le now r s :
  0 <= userCounter s -> userCounter s + 1 < uint_modulus ->
  userCounter s <= userCounter (snd (handle now r s)) <= userCounter s + 1.
Proof.
  intros H0 Hlt. pose proof (handle_userCounter now r s) as H.
  destruct (created_user_id (fst (handle now r s))).
  - destruct H as [_ ->]. rewrite uint_incr_small by lia. lia.
  - rewrite H. lia.
Qed.

(** From the fresh server on, usernames and emails stay unique for as long
    as the counter cannot have wrapped. *)
Lemma users_ok_run reqs : forall s,
  users_ok s ->
  userCounter s + Z.of_nat (length reqs) < uint_modulus ->
  users_ok (snd (run reqs s)).
Proof.
  induction reqs as [|[now r] rest IH]; intros s Hok Hlt; [assumption|].
  rewrite run_cons. cbn [snd length] in *.
  pose proof (ok_counter s Hok) as Hc.
  apply IH.
  - apply users_ok_handle; [assumption|lia].
  - pose proof (handle_userCounter_le now r s). lia.
Qed.

(** ** Answers and failures *)

Ltac in_list :=
  repeat first [apply list_elem_of_here|apply list_elem_of_further].

(** Every route answers with one of the statuses of its handler: the list
    routes always with 200, the post routes never with 409. *)
Theorem handle_status now r s :
  status (fst (handle now r s)) ∈ route_statuses r.
Proof.
  destruct r as [|b|id|id b|id| |b|id|id b|id]; cbn [handle route_statuses].
  - in_list.
  - unfold createUser. destruct b; [cbn; in_list|].
    destruct (existsb _ _); cbn; in_list.
  - rewrite getUser_eq. repeat case_match; cbn; in_list.
  - rewrite updateUser_eq. repeat case_match; cbn; in_list.
  - rewrite deleteUser_eq. repeat case_match; cbn; in_list.
  - in_list.
  - unfold createPost. destruct b; cbn; in_list.
  - rewrite getPost_eq. repeat case_match; cbn; in_list.
  - rewrite updatePost_eq. repeat case_match; cbn; in_list.
  - rewrite deletePost_eq. repeat case_match; cbn; in_list.
Qed.

Ltac succeeded :=
  let Hs := fresh "Hs" in
  cbn; unfold StatusOK, StatusCreated; intros [Hs|Hs]; [lia|discriminate].

(** A request that is answered with an error status, and every GET, leaves
    all four package variables as they were. *)
Theorem failure_keeps_state now r s :
  400 <= status (fst (handle now r s)) \/ read_route r = true ->
  snd (handle now r s) = s.
Proof.
  destruct r as [|b|id|id b|id| |b|id|id b|id]; cbn [handle read_route].
  - reflexivity.
  - unfold createUser. destruct b; [reflexivity|].
    destruct (existsb _ _); [reflexivity|].
    succeeded.
  - rewrite getUser_eq. repeat case_match; reflexivity.
  - rewrite updateUser_eq. repeat case_match; try reflexivity.
    succeeded.
  - rewrite deleteUser_eq. repeat case_match; try reflexivity.
    succeeded.
  - reflexivity.
  - unfold createPost. destruct b; [reflexivity|].
    succeeded.
  - rewrite getPost_eq. repeat case_match; reflexivity.
  - rewrite updatePost_eq. repeat case_match; try reflexivity.
    succeeded.
  - rewrite deletePost_eq. repeat case_match; try reflexivity.
    succeeded.
Qed.

Lemma failure_keeps_state_witness :
  snd (handle 30 (PUT_users_id "2" (Bound alice)) two_users) = two_users.
Proof.
  apply failure_keeps_state. left. vm_compute. discriminate.
Defined.

(** ** What a by-id route can reach *)

Lemma decimal_uint32_lt id : decimal_uint32 id -> decimal_value id < 2 ^ 32.
Proof. intros (_ & _ & H). exact H. Qed.

Lemma elem_of_delete_ne {A} (l : list A) (i k : nat) x :
  l !! k = Some x -> k <> i -> x ∈ delete i l.
Proof.
  intros Hk Hne. destruct (decide (k < i)%nat) as [Hlt|Hge].
  - apply (list_elem_of_lookup_2 _ k).
    rewrite list_lookup_delete_lt by assumption. assumption.
  - apply (list_elem_of_lookup_2 _ (pred k)).
    rewrite list_lookup_delete_ge by lia.
    replace (S (pred k)) with k by lia. assumption.
Qed.

(** A 200 of [GET /users/:id] carries the first user of the collection whose
    identity is the value of the parameter; that value is below [2^32]. *)
Theorem getUser_found id s u s' :
  getUser id s = (JSON StatusOK (UserBody u), s') ->
  s' = s /\ decimal_uint32 id
  /\ User.ID u = decimal_value id /\ User.ID u < 2 ^ 32
  /\ exists i : nat,
       users s !! i = Some u
       /\ forall (j : nat) v,
            users s !! j = Some v -> (j < i)%nat ->
            User.ID v <> decimal_value id.
Proof.
  rewrite getUser_eq.
  destruct (decide (decimal_uint32 id)) as [Hw|Hw]; [|discriminate].
  destruct (list_find _ (users s)) as [[i x]|] eqn:Hf; [|discriminate].
  intros [= -> <-]. apply list_find_Some in Hf as (Hi & Hid & Hfirst).
  split; [reflexivity|]. split; [assumption|]. split; [assumption|].
  split; [rewrite Hid; apply decimal_uint32_lt; assumption|].
  exists i. split; [assumption|]. intros j v Hj Hlt. eapply Hfirst; eassumption.
Qed.

Lemma getUser_found_witness :
  let u := User.mk 2 "bob" "b@x.com" zero_Time zero_Time in
  two_users = two_users /\ decimal_uint32 "2"
  /\ User.ID u = decimal_value "2" /\ User.ID u < 2 ^ 32
  /\ exists i : nat,
       users two_users !! i = Some u
       /\ forall (j : nat) v,
            users two_users !! j = Some v -> (j < i)%nat ->
            User.ID v <> decimal_value "2".
Proof.
  intros u. apply (getUser_found "2" two_users u two_users).
  vm_compute. reflexivity.
Defined.

(** A user whose identity is [2^32] or more is out of reach of every route:
    no request removes or changes it, and no answer carries it alone.  (It
    still shows in the list of [GET /users].) *)
Theorem high_id_user_out_of_reach now r s u :
  u ∈ users s -> 2 ^ 32 <= User.ID u ->
  u ∈ users (snd (handle now r s))
  /\ body (fst (handle now r s)) <> UserBody u.
Proof.
  intros Hu Hhigh.
  destruct r as [|b|id|id b|id| |b|id|id b|id]; cbn [handle].
  - split; [assumption|discriminate].
  - unfold createUser. destruct b as [msg|req]; [split; [assumption|discriminate]|].
    destruct (existsb (user_clash req) (users s)) eqn:E;
      [split; [assumption|discriminate]|].
    cbn. split; [apply elem_of_app; left; assumption|].
    intros [= Heq].
    assert (existsb (user_clash req) (users s) = true); [|congruence].
    apply existsb_elem_of. exists u. split; [assumption|].
    apply user_clash_true. left. rewrite <- Heq. reflexivity.
  - rewrite getUser_eq.
    destruct (decide (decimal_uint32 id)) as [Hw|Hw];
      [|split; [assumption|discriminate]].
    apply decimal_uint32_lt in Hw.
    destruct (list_find _ (users s)) as [[i x]|] eqn:Hf;
      [|split; [assumption|discriminate]].
    apply list_find_Some in Hf as (_ & Hid & _).
    split; [assumption|]. cbn. intros [= ->]. lia.
  - rewrite updateUser_eq.
    destruct (decide (decimal_uint32 id)) as [Hw|Hw];
      [|split; [assumption|discriminate]].
    apply decimal_uint32_lt in Hw.
    destruct b as [msg|req]; [split; [assumption|discriminate]|].
    destruct (list_find _ (users s)) as [[i x]|] eqn:Hf;
      [|split; [assumption|discriminate]].
    apply list_find_Some in Hf as (Hi & Hid & _).
    destruct (existsb _ _); [split; [assumption|discriminate]|].
    cbn. split.
    + apply list_elem_of_lookup_1 in Hu as [k Hk].
      apply (list_elem_of_lookup_2 _ k).
      rewrite list_lookup_insert_ne; [assumption|].
      intros ->. rewrite Hi in Hk. injection Hk as ->. lia.
    + intros [= Heq]. rewrite <- Heq in Hhigh. cbn in Hhigh. lia.
  - rewrite deleteUser_eq.
    destruct (decide (decimal_uint32 id)) as [Hw|Hw];
      [|split; [assumption|discriminate]].
    apply decimal_uint32_lt in Hw.
    destruct (list_find _ (users s)) as [[i x]|] eqn:Hf;
      [|split; [assumption|discriminate]].
    apply list_find_Some in Hf as (Hi & Hid & _).
    cbn. split; [|discriminate].
    apply list_elem_of_lookup_1 in Hu as [k Hk].
    apply (elem_of_delete_ne _ i k); [assumption|].
    intros ->. rewrite Hi in Hk. injection Hk as ->. lia.
  - split; [assumption|discriminate].
  - destruct (post_route_keeps_users now (POST_posts b) s eq_refl) as [Hk _];
      cbn [handle] in Hk; rewrite Hk.
    split; [assumption|].
    unfold createPost. destruct b; discriminate.
  - destruct (post_route_keeps_users now (GET_posts_id id) s eq_refl) as [Hk _];
      cbn [handle] in Hk; rewrite Hk.
    split; [assumption|].
    rewrite getPost_eq. repeat case_match; discriminate.
  - destruct (post_route_keeps_users now (PUT_posts_id id b) s eq_refl)
      as [Hk _]; cbn [handle] in Hk; rewrite Hk.
    split; [assumption|].
    rewrite updatePost_eq. repeat case_match; discriminate.
  - destruct (post_route_keeps_users now (DELETE_posts_id id) s eq_refl)
      as [Hk _]; cbn [handle] in Hk; rewrite Hk.
    split; [assumption|].
    rewrite deletePost_eq. repeat case_match; discriminate.
Qed.

Lemma high_id_user_out_of_reach_witness :
  high_user ∈ users (snd (handle 30 (DELETE_users_id "4294967296")
                            high_user_state))
  /\ body (fst (handle 30 (DELETE_users_id "4294967296") high_user_state))
     <> UserBody high_user.
Proof.
  apply high_id_user_out_of_reach.
  - apply list_elem_of_here.
  - vm_compute. discriminate.
Defined.

(** ** Create, delete, then get *)

Lemma find_user_snoc id (l : list User.t) u :
  (forall v, v ∈ l -> User.ID v <> id) -> User.ID u = id ->
  list_find (fun v => User.ID v = id) (l ++ [u]) = Some (length l, u).
Proof.
  intros Hl Hu. rewrite list_find_app_r.
  - cbn. rewrite decide_True by assumption. reflexivity.
  - apply find_user_None. intros (v & Hv & Hid). exact (Hl v Hv Hid).
Qed.

(** In a user repository that is in order, the user a create returned is the
    one a get of its identity returns, for every spelling of that identity
    as a decimal unsigned 32-bit integer. *)
Theorem createUser_then_getUser bind s u s' id :
  users_ok s ->
  createUser bind s = (JSON StatusCreated (UserBody u), s') ->
  decimal_uint32 id -> decimal_value id = User.ID u ->
  getUser id s' = (JSON StatusOK (UserBody u), s').
Proof.
  intros Hok Hc Hw Hid. unfold createUser in Hc.
  destruct bind as [msg|req]; [discriminate|].
  destruct (existsb _ _); [discriminate|].
  injection Hc as <- <-. cbn in Hid.
  rewrite getUser_eq. destruct (decide (decimal_uint32 id)); [|contradiction].
  cbn [users set_users set_userCounter].
  rewrite (find_user_snoc (decimal_value id) (users s)
             (User.mk (userCounter s) (Username req) (Email req)
                      zero_Time zero_Time)).
  - reflexivity.
  - intros v Hv. pose proof (ok_below s Hok v Hv). lia.
  - cbn. congruence.
Qed.

Lemma two_users_ok : users_ok two_users.
Proof.
  apply (users_ok_createUser (Bound bob)
           (snd (createUser (Bound alice) init_state))).
  - apply users_ok_createUser; [exact users_ok_init|].
    vm_compute. reflexivity.
  - vm_compute. reflexivity.
Qed.

Lemma createUser_then_getUser_witness :
  getUser "003"
    (snd (createUser (Bound {| Username := "eve"; Email := "e@x.com" |})
                     two_users))
  = (JSON StatusOK (UserBody (User.mk 3 "eve" "e@x.com" zero_Time zero_Time)),
     snd (createUser (Bound {| Username := "eve"; Email := "e@x.com" |})
                     two_users)).
Proof.
  apply (createUser_then_getUser
           (Bound {| Username := "eve"; Email := "e@x.com" |}) two_users).
  - exact two_users_ok.
  - vm_compute. reflexivity.
  - vm_compute. repeat split; [discriminate|repeat constructor; discriminate].
  - reflexivity.
Defined.

(** A successful delete takes the first user with the identity out of the
    collection and keeps the others in their order; the counter stays, so
    the identity is not handed out again. *)
Theorem deleteUser_removes_one id s r s' :
  deleteUser id s = (r, s') -> status r = StatusOK ->
  exists (i : nat) u,
    users s !! i = Some u /\ User.ID u = decimal_value id
    /\ (forall (j : nat) v, users s !! j = Some v -> (j < i)%nat ->
          User.ID v <> decimal_value id)
    /\ users s' = take i (users s) ++ drop (S i) (users s)
    /\ S (length (users s')) = length (users s)
    /\ users s' `sublist_of` users s
    /\ userCounter s' = userCounter s
    /\ posts s' = posts s /\ postCounter s' = postCounter s.
Proof.
  rewrite deleteUser_eq.
  destruct (decide (decimal_uint32 id)); [|intros [= <- <-]; discriminate].
  destruct (list_find _ (users s)) as [[i u]|] eqn:Hf;
    [|intros [= <- <-]; discriminate].
  intros [= <- <-] _. apply list_find_Some in Hf as (Hi & Hid & Hfirst).
  exists i, u. cbn [users set_users posts userCounter postCounter].
  split; [assumption|]. split; [assumption|].
  split; [intros j v Hj Hlt; eapply Hfirst; eassumption|].
  split; [apply delete_take_drop|].
  split.
  { rewrite length_delete by (rewrite Hi; eauto).
    apply lookup_lt_Some in Hi. lia. }
  split; [apply sublist_delete|]. auto.
Qed.

Lemma deleteUser_removes_one_witness :
  exists (i : nat) u,
    users two_users !! i = Some u /\ User.ID u = decimal_value "1"
    /\ (forall (j : nat) v, users two_users !! j = Some v -> (j < i)%nat ->
          User.ID v <> decimal_value "1")
    /\ users (snd (deleteUser "1" two_users))
       = take i (users two_users) ++ drop (S i) (users two_users)
    /\ S (length (users (snd (deleteUser "1" two_users))))
       = length (users two_users)
    /\ users (snd (deleteUser "1" two_users)) `sublist_of` users two_users
    /\ userCounter (snd (deleteUser "1" two_users)) = userCounter two_users
    /\ posts (snd (deleteUser "1" two_users)) = posts two_users
    /\ postCounter (snd (deleteUser "1" two_users)) = postCounter two_users.
Proof.
  apply (deleteUser_removes_one "1" two_users
           (fst (deleteUser "1" two_users)));
    [apply surjective_pairing|reflexivity].
Defined.

Lemma delete_unique_gone id (l : list User.t) (i : nat) u :
  unique_ids l -> l !! i = Some u -> User.ID u = id ->
  ~ exists v, v ∈ delete i l /\ User.ID v = id.
Proof.
  intros Huniq Hi Hid (v & Hv & Hvid).
  apply list_elem_of_lookup_1 in Hv as [j Hj].
  rewrite list_lookup_delete in Hj.
  assert (Heq : (if decide (j < i)%nat then j else S j) = i)
    by (eapply Huniq; [eassumption|eassumption|congruence]).
  case_decide; lia.
Qed.

(** Where identities are unique, a deleted user is gone: get, update and a
    second delete of the identity are answered with 404. *)
Theorem deleteUser_then_gone id s r s' :
  unique_ids (users s) ->
  deleteUser id s = (r, s') -> status r = StatusOK ->
  ~ user_present (decimal_value id) s'
  /\ getUser id s' = (JSON StatusNotFound (ErrorBody "User not found"), s')
  /\ deleteUser id s' = (JSON StatusNotFound (ErrorBody "User not found"), s')
  /\ forall req now,
       updateUser id (Bound req) now s'
       = (JSON StatusNotFound (ErrorBody "User not found"), s').
Proof.
  intros Huniq. rewrite deleteUser_eq.
  destruct (decide (decimal_uint32 id)) as [Hw|Hw];
    [|intros [= <- <-]; discriminate].
  destruct (list_find _ (users s)) as [[i u]|] eqn:Hf;
    [|intros [= <- <-]; discriminate].
  intros [= <- <-] _. apply list_find_Some in Hf as (Hi & Hid & _).
  pose proof (delete_unique_gone _ _ _ _ Huniq Hi Hid) as Hgone.
  assert (Hnone : list_find (fun v => User.ID v = decimal_value id)
                    (delete i (users s)) = None)
    by (apply find_user_None; assumption).
  split; [exact Hgone|].
  rewrite getUser_eq, deleteUser_eq.
  destruct (decide (decimal_uint32 id)); [|contradiction].
  cbn [users set_users]. rewrite Hnone.
  split; [reflexivity|]. split; [reflexivity|].
  intros req now. rewrite updateUser_eq.
  destruct (decide (decimal_uint32 id)); [|contradiction].
  cbn [users set_users]. rewrite Hnone. reflexivity.
Qed.

Lemma two_users_unique_ids : unique_ids (users two_users).
Proof.
  intros i j u v. vm_compute.
  destruct i as [|[|i]], j as [|[|j]]; try discriminate; try reflexivity;
    intros [= <-] [= <-] H; discriminate H.
Defined.

Lemma deleteUser_then_gone_witness :
  getUser "1" (snd (deleteUser "1" two_users))
  = (JSON StatusNotFound (ErrorBody "User not found"),
     snd (deleteUser "1" two_users)).
Proof.
  apply (deleteUser_then_gone "1" two_users (fst (deleteUser "1" two_users))).
  - exact two_users_unique_ids.
  - apply surjective_pairing.
  - reflexivity.
Defined.

(** ** Requests sent twice *)

(** A bound create request sent a second time is answered with 409, whatever
    the first answer was, and changes nothing. *)
Theorem createUser_again_conflict req s :
  createUser (Bound req) (snd (createUser (Bound req) s))
  = (JSON StatusConflict (ErrorBody "User already exists"),
     snd (createUser (Bound req) s)).
Proof.
  unfold createUser at 2 3.
  destruct (existsb (user_clash req) (users s)) eqn:E; cbn [snd].
  - unfold createUser. rewrite E. reflexivity.
  - unfold createUser. cbn [users set_users set_userCounter].
    rewrite existsb_app. cbn [existsb].
    assert (Hc : user_clash req
              (User.mk (userCounter s) (Username req) (Email req)
                       zero_Time zero_Time) = true)
      by (apply user_clash_true; left; reflexivity).
    rewrite Hc. cbn [orb]. rewrite orb_true_r. reflexivity.
Qed.

Lemma find_user_insert id (l : list User.t) (i : nat) u u' :
  list_find (fun v => User.ID v = id) l = Some (i, u) ->
  User.ID u' = id ->
  list_find (fun v => User.ID v = id) (<[i := u']> l) = Some (i, u').
Proof.
  intros Hf Hid. apply list_find_Some in Hf as (Hi & _ & Hfirst).
  apply list_find_Some. split; [|split].
  - apply list_lookup_insert_eq. eapply lookup_lt_Some. eassumption.
  - assumption.
  - intros j y Hj Hlt. rewrite list_lookup_insert_ne in Hj by lia.
    eapply Hfirst; eassumption.
Qed.

Lemma other_user_clash_insert req (l : list User.t) (i : nat) user user' :
  l !! i = Some user -> User.ID user' = User.ID user ->
  existsb (other_user_clash req user) l = false ->
  existsb (other_user_clash req user') (<[i := user']> l) = false.
Proof.
  intros Hi Hid Hno. apply not_true_is_false. intros Hyes.
  apply existsb_elem_of in Hyes as (x & Hx & Hc).
  apply other_user_clash_true in Hc as [Hne Hclash].
  apply list_elem_of_lookup_1 in Hx as [j Hj].
  apply list_lookup_insert_Some in Hj as [(_ & <- & _)|[_ Hj]];
    [congruence|].
  assert (existsb (other_user_clash req user) l = true); [|congruence].
  apply existsb_elem_of. exists x.
  split; [eapply list_elem_of_lookup_2; eassumption|].
  apply other_user_clash_true. split; [congruence|assumption].
Qed.

(** An update sent a second time at the same clock reading gets the answer
    of the first and leaves the state the first one made. *)
Theorem updateUser_idempotent id bind now s :
  updateUser id bind now (snd (updateUser id bind now s))
  = updateUser id bind now s.
Proof.
  rewrite (updateUser_eq id bind now s).
  destruct (decide (decimal_uint32 id)) as [Hw|Hw] eqn:Ed;
    [|cbn [snd]; rewrite updateUser_eq, Ed; reflexivity].
  destruct bind as [msg|req];
    [cbn [snd]; rewrite updateUser_eq, Ed; reflexivity|].
  destruct (list_find _ (users s)) as [[i user]|] eqn:Hf;
    [|cbn [snd]; rewrite updateUser_eq, Ed, Hf; reflexivity].
  destruct (existsb (other_user_clash req user) (users s)) eqn:E;
    [cbn [snd]; rewrite updateUser_eq, Ed, Hf, E; reflexivity|].
  cbv zeta. cbn [snd]. rewrite updateUser_eq, Ed.
  cbn [users set_users].
  pose proof Hf as Hfind. apply list_find_Some in Hfind as (Hi & Hid & _).
  rewrite (find_user_insert _ _ _ _
             (User.mk (User.ID user) (Username req) (Email req)
                      (User.CreatedAt user) now) Hf Hid).
  rewrite (other_user_clash_insert req (users s) i user
             (User.mk (User.ID user) (Username req) (Email req)
                      (User.CreatedAt user) now) Hi eq_refl E).
  cbv zeta. cbn [User.ID User.CreatedAt].
  rewrite list_insert_insert_eq. reflexivity.
Qed.

(** A successful update of a user rewrites one entry of the user
    collection: username, email and [UpdatedAt] are the new ones, identity
    and [CreatedAt] are kept; the other entries, the length, the counters
    and the posts are as before. *)
Theorem updateUser_frame id bind now s r s' :
  updateUser id bind now s = (r, s') ->
  status r = StatusOK ->
  exists req (i : nat) old new,
    bind = Bound req /\ body r = UserBody new
    /\ users s !! i = Some old /\ User.ID old = decimal_value id
    /\ users s' !! i = Some new
    /\ User.ID new = User.ID old
    /\ User.CreatedAt new = User.CreatedAt old
    /\ User.Username new = Username req /\ User.Email new = Email req
    /\ User.UpdatedAt new = now
    /\ (forall j : nat, j <> i -> users s' !! j = users s !! j)
    /\ length (users s') = length (users s)
    /\ userCounter s' = userCounter s
    /\ posts s' = posts s /\ postCounter s' = postCounter s.
Proof.
  rewrite updateUser_eq.
  destruct (decide (decimal_uint32 id)); [|intros [= <- <-]; discriminate].
  destruct bind as [msg|req]; [intros [= <- <-]; discriminate|].
  destruct (list_find _ (users s)) as [[i old]|] eqn:Hf;
    [|intros [= <- <-]; discriminate].
  destruct (existsb _ _); [intros [= <- <-]; discriminate|].
  apply list_find_Some in Hf as (Hi & Hid & _).
  cbv zeta. intros [= <- <-] _.
  exists req, i, old. eexists. split; [reflexivity|]. split; [reflexivity|].
  cbn. repeat split; try assumption.
  - apply list_lookup_insert_eq. eapply lookup_lt_Some. eassumption.
  - intros j Hj. apply list_lookup_insert_ne. congruence.
  - apply length_insert.
Qed.

Lemma updateUser_frame_witness :
  let bind := Bound {| Username := "al"; Email := "al@x.com" |} in
  let out := updateUser "1" bind 30 two_users in
  exists req (i : nat) old new,
    bind = Bound req /\ body (fst out) = UserBody new
    /\ users two_users !! i = Some old /\ User.ID old = decimal_value "1"
    /\ users (snd out) !! i = Some new
    /\ User.ID new = User.ID old
    /\ User.CreatedAt new = User.CreatedAt old
    /\ User.Username new = Username req /\ User.Email new = Email req
    /\ User.UpdatedAt new = 30
    /\ (forall j : nat, j <> i -> users (snd out) !! j = users two_users !! j)
    /\ length (users (snd out)) = length (users two_users)
    /\ userCounter (snd out) = userCounter two_users
    /\ posts (snd out) = posts two_users
    /\ postCounter (snd out) = postCounter two_users.
Proof.
  intros bind out.
  apply (updateUser_frame "1" bind 30 two_users (fst out) (snd out));
    [apply surjective_pairing|reflexivity].
Defined.

(** ** The size of the collections along a run *)

Lemma users_ok_run_witness :
  users_ok (snd (run [(10, POST_users (Bound alice));
                      (11, PUT_users_id "1" (Bound bob));
                      (12, POST_users (Bound alice));
                      (13, DELETE_users_id "1")] init_state)).
Proof.
  apply users_ok_run; [exact users_ok_init|].
  vm_compute. reflexivity.
Defined.

Ltac open_handler :=
  repeat match goal with
    | |- context [decide (decimal_uint32 ?id)] =>
        destruct (decide (decimal_uint32 id))
    | |- context [match ?b with BindError _ => _ | Bound _ => _ end] =>
        destruct b
    | |- context [list_find ?P ?l] =>
        let Hf := fresh "Hf" in
        destruct (list_find P l) as [[? ?]|] eqn:Hf
    | |- context [existsb ?f ?l] => destruct (existsb f l)
    end.

Ltac tally :=
  cbn [fst snd users posts set_users set_posts set_userCounter
       set_postCounter created_user_id created_post_id user_deleted
       post_deleted body];
  try change (bool_decide (StatusOK = StatusCreated)) with false;
  try change (bool_decide (StatusCreated = StatusCreated)) with true;
  try change (bool_decide ("User deleted successfully"
                           = "User deleted successfully")) with true;
  try change (bool_decide ("Post deleted successfully"
                           = "Post deleted successfully")) with true;
  try change (bool_decide ("User deleted successfully"
                           = "Post deleted successfully")) with false;
  try change (bool_decide ("Post deleted successfully"
                           = "User deleted successfully")) with false;
  cbv iota; rewrite ?length_app, ?length_insert; cbn [length].

Lemma length_delete_found {A} (P : A -> Prop) `{forall x, Decision (P x)}
    (l : list A) (i : nat) x :
  list_find P l = Some (i, x) -> S (length (delete i l)) = length l.
Proof.
  intros Hf. apply list_find_Some in Hf as (Hi & _ & _).
  rewrite length_delete by (rewrite Hi; eauto).
  apply lookup_lt_Some in Hi. lia.
Qed.

Lemma handle_users_length now r s :
  Z.of_nat (length (users (snd (handle now r s)))) =
    Z.of_nat (length (users s))
    + match created_user_id (fst (handle now r s)) with
      | Some _ => 1
      | None => 0
      end
    - (if user_deleted (fst (handle now r s)) then 1 else 0).
Proof.
  destruct r as [|b|id|id b|id| |b|id|id b|id]; cbn [handle];
    [unfold getUsers|unfold createUser|rewrite getUser_eq
    |rewrite updateUser_eq|rewrite deleteUser_eq
    |unfold getPosts|unfold createPost|rewrite getPost_eq
    |rewrite updatePost_eq|rewrite deletePost_eq];
    open_handler; cbv zeta; tally; try lia.
  match goal with
  | Hf : list_find _ _ = Some _ |- _ => apply length_delete_found in Hf
  end.
  lia.
Qed.

Lemma handle_posts_length now r s :
  Z.of_nat (length (posts (snd (handle now r s)))) =
    Z.of_nat (length (posts s))
    + match created_post_id (fst (handle now r s)) with
      | Some _ => 1
      | None => 0
      end
    - (if post_deleted (fst (handle now r s)) then 1 else 0).
Proof.
  destruct r as [|b|id|id b|id| |b|id|id b|id]; cbn [handle];
    [unfold getUsers|unfold createUser|rewrite getUser_eq
    |rewrite updateUser_eq|rewrite deleteUser_eq
    |unfold getPosts|unfold createPost|rewrite getPost_eq
    |rewrite updatePost_eq|rewrite deletePost_eq];
    open_handler; cbv zeta; tally; try lia.
  match goal with
  | Hf : list_find _ _ = Some _ |- _ => apply length_delete_found in Hf
  end.
  lia.
Qed.

(** After any run, each collection holds as many entities as it held at the
    start, plus the creates answered with 201, minus the deletes answered
    with 200: what [count] of the list routes reports moves with nothing
    else. *)
Theorem collection_sizes_run reqs : forall s,
  Z.of_nat (length (users (snd (run reqs s)))) =
    Z.of_nat (length (users s))
    + Z.of_nat (length (created_user_ids (fst (run reqs s))))
    - Z.of_nat (users_deleted (fst (run reqs s)))
  /\ Z.of_nat (length (posts (snd (run reqs s)))) =
       Z.of_nat (length (posts s))
       + Z.of_nat (length (created_post_ids (fst (run reqs s))))
       - Z.of_nat (posts_deleted (fst (run reqs s))).
Proof.
  unfold users_deleted, posts_deleted, created_user_ids, created_post_ids.
  induction reqs as [|[now r] rest IH]; intros s; [cbn; lia|].
  rewrite run_cons. cbn [fst snd omap list_omap List.filter].
  destruct (IH (snd (handle now r s))) as [IHu IHp].
  rewrite IHu, IHp, handle_users_length, handle_posts_length.
  destruct (created_user_id (fst (handle now r s)));
    destruct (user_deleted (fst (handle now r s)));
    destruct (created_post_id (fst (handle now r s)));
    destruct (post_deleted (fst (handle now r s)));
    cbn [length]; lia.
Qed.

(** ** The order of the user collection *)

Lemma strictly_increasing_snoc l b :
  strictly_increasing l -> (forall a, a ∈ l -> a < b) ->
  strictly_increasing (l ++ [b]).
Proof.
  intros Hl Hb i j x y Hi Hj Hlt.
  apply lookup_snoc_Some in Hi as [[Hil Hi]|[-> <-]];
    apply lookup_snoc_Some in Hj as [[Hjl Hj]|[-> <-]].
  - eapply Hl; eassumption.
  - apply Hb. eapply list_elem_of_lookup_2. eassumption.
  - lia.
  - lia.
Qed.

Lemma strictly_increasing_delete l (i : nat) :
  strictly_increasing l -> strictly_increasing (delete i l).
Proof.
  intros Hl j k x y Hj Hk Hlt. rewrite list_lookup_delete in Hj, Hk.
  eapply Hl; [exact Hj|exact Hk|]. repeat case_decide; lia.
Qed.

Lemma users_in_id_order_handle now r s :
  users_ok s -> users_in_id_order s ->
  users_in_id_order (snd (handle now r s)).
Proof.
  intros Hok Hord. unfold users_in_id_order in *.
  destruct (user_route r) eqn:E;
    [|destruct (post_route_keeps_users now r s E) as [-> _]; assumption].
  destruct r as [|b|id|id b|id| |b|id|id b|id]; try discriminate E;
    cbn [handle];
    [unfold getUsers|unfold createUser|rewrite getUser_eq
    |rewrite updateUser_eq|rewrite deleteUser_eq];
    open_handler; cbv zeta; cbn [snd users set_users set_userCounter];
    try assumption.
  - rewrite fmap_snoc. apply strictly_increasing_snoc; [assumption|].
    intros a Ha. apply list_elem_of_fmap in Ha as (u & -> & Hu).
    pose proof (ok_below s Hok u Hu). cbn. lia.
  - rewrite list_fmap_insert. cbn [User.ID].
    rewrite list_insert_id; [assumption|].
    rewrite list_lookup_fmap.
    match goal with
    | Hf : list_find _ _ = Some _ |- _ =>
        apply list_find_Some in Hf as (Hi & _ & _); rewrite Hi
    end.
    reflexivity.
  - rewrite list_fmap_delete. apply strictly_increasing_delete. assumption.
Qed.

Lemma users_ordered_run reqs : forall s,
  users_ok s -> users_in_id_order s ->
  userCounter s + Z.of_nat (length reqs) < uint_modulus ->
  users_ok (snd (run reqs s)) /\ users_in_id_order (snd (run reqs s)).
Proof.
  induction reqs as [|[now r] rest IH]; intros s Hok Hord Hlt;
    [split; assumption|].
  rewrite run_cons. cbn [snd length] in *.
  pose proof (ok_counter s Hok) as Hc.
  apply IH.
  - apply users_ok_handle; [assumption|lia].
  - apply users_in_id_order_handle; assumption.
  - pose proof (handle_userCounter_le now r s). lia.
Qed.

(** From the fresh server on, and for as long as the counter cannot have
    wrapped, the user collection is in the order of its identities: the
    list of [GET /users] shows the users oldest first, whatever was updated
    or deleted in between. *)
Theorem users_in_id_order_run reqs :
  userCounter init_state + Z.of_nat (length reqs) < uint_modulus ->
  users_in_id_order (snd (run reqs init_state)).
Proof.
  intros Hlt. apply users_ordered_run; [exact users_ok_init| |assumption].
  intros i j a b Hi. cbn in Hi. rewrite lookup_nil in Hi. discriminate.
Qed.

Lemma users_in_id_order_run_witness :
  users_in_id_order
    (snd (run [(10, POST_users (Bound alice)); (11, POST_users (Bound bob));
               (12, DELETE_users_id "1"); (13, POST_users (Bound alice))]
              init_state)).
Proof.
  apply users_in_id_order_run. vm_compute. reflexivity.
Defined.

(** Where the user collection is in the order of its identities, the author
    given to a new post is the smallest identity of a user there is: the
    oldest user left. *)
Theorem createPost_author_oldest req s p s' :
  users_in_id_order s ->
  createPost (Bound req) s = (JSON StatusCreated (PostBody p), s') ->
  (forall u, u ∈ users s -> Post.AuthorID p <= User.ID u)
  /\ (users s <> [] -> exists u, u ∈ users s /\ User.ID u = Post.AuthorID p).
Proof.
  intros Hord [= <- <-]. cbn [Post.AuthorID].
  match goal with
  | |- context [if ?c then ?a else ?b] =>
      assert (Ha : (if c then a else b) =
                   match users s with [] => 1 | first :: _ => User.ID first end)
        by (destruct (users s); reflexivity);
      rewrite Ha; clear Ha
  end.
  destruct (users s) as [|first rest] eqn:Hus.
  - split; [|congruence]. intros u Hu. apply elem_of_nil in Hu. contradiction.
  - split; [|intros _; exists first; split; [apply list_elem_of_here|reflexivity]].
    intros u Hu. apply list_elem_of_lookup_1 in Hu as [[|k] Hk].
    + cbn in Hk. injection Hk as ->. lia.
    + unfold users_in_id_order in Hord. rewrite Hus in Hord.
      assert (User.ID first < User.ID u); [|lia].
      apply (Hord 0%nat (S k)); [reflexivity| |lia].
      rewrite list_lookup_fmap, Hk. reflexivity.
Qed.

Lemma createPost_author_oldest_witness :
  Post.AuthorID (Post.mk 1 "T" "C" 1 User.zero zero_Time zero_Time)
  <= User.ID (User.mk 2 "bob" "b@x.com" zero_Time zero_Time).
Proof.
  destruct (createPost_author_oldest hello two_users
              (Post.mk 1 "T" "C" 1 User.zero zero_Time zero_Time)
              (snd (createPost (Bound hello) two_users))) as [Hmin _].
  - unfold users_in_id_order.
    change (User.ID <$> users two_users) with [1; 2].
    intros i j a b Hi Hj Hlt.
    destruct i as [|[|i]], j as [|[|j]]; cbn in Hi, Hj;
      try discriminate; try lia.
    injection Hi as <-. injection Hj as <-. lia.
  - reflexivity.
  - apply Hmin. apply list_elem_of_further, list_elem_of_here.
Defined.

(** ** What the post routes keep in order *)

Lemma posts_ok_init : posts_ok init_state.
Proof.
  split; cbn.
  - split; [lia|reflexivity].
  - intros p Hp. apply elem_of_nil in Hp. contradiction.
  - intros i j p q Hi. rewrite lookup_nil in Hi. discriminate.
Qed.

Lemma posts_ok_createPost bind s :
  posts_ok s -> postCounter s + 1 < uint_modulus ->
  posts_ok (snd (createPost bind s)).
Proof.
  intros [Hc Hbelow Hids] Hlt. unfold createPost.
  destruct bind as [msg|req]; [split; assumption|].
  split; cbn [snd posts postCounter set_posts set_postCounter].
  - rewrite uint_incr_small by lia. lia.
  - rewrite uint_incr_small by lia. intros p Hp.
    apply elem_of_app in Hp as [Hp|Hp].
    + specialize (Hbelow p Hp). lia.
    + apply list_elem_of_singleton in Hp as ->. cbn. lia.
  - intros i j p q Hi Hj Heq.
    apply lookup_snoc_Some in Hi as [[Hil Hi]|[-> <-]];
      apply lookup_snoc_Some in Hj as [[Hjl Hj]|[-> <-]].
    + eapply Hids; eassumption.
    + apply list_elem_of_lookup_2 in Hi. specialize (Hbelow p Hi).
      cbn in Heq. lia.
    + apply list_elem_of_lookup_2 in Hj. specialize (Hbelow q Hj).
      cbn in Heq. lia.
    + reflexivity.
Qed.

Lemma posts_ok_updatePost id bind now s :
  posts_ok s -> posts_ok (snd (updatePost id bind now s)).
Proof.
  intros Hok. rewrite updatePost_eq.
  destruct (decide (decimal_uint32 id)); [|assumption].
  destruct bind as [msg|req]; [assumption|].
  destruct (list_find _ (posts s)) as [[i post]|] eqn:Hf; [|assumption].
  apply list_find_Some in Hf as (Hi & _ & _).
  destruct Hok as [Hc Hbelow Hids].
  cbv zeta. split; cbn [snd posts postCounter set_posts].
  - assumption.
  - intros p Hp. apply list_elem_of_lookup_1 in Hp as [k Hk].
    apply list_lookup_insert_Some in Hk as [(<- & <- & _)|[_ Hk]].
    + cbn. apply Hbelow. eapply list_elem_of_lookup_2; eassumption.
    + apply Hbelow. eapply list_elem_of_lookup_2; eassumption.
  - intros j k p q Hj Hk Heq.
    apply list_lookup_insert_Some in Hj as [(<- & <- & _)|[Hji Hj]];
      apply list_lookup_insert_Some in Hk as [(Hik & <- & _)|[Hki Hk]];
      cbn in Heq.
    + assumption.
    + eapply Hids; eassumption.
    + subst k. eapply Hids; eassumption.
    + eapply Hids; eassumption.
Qed.

Lemma posts_ok_deletePost id s :
  posts_ok s -> posts_ok (snd (deletePost id s)).
Proof.
  intros Hok. rewrite deletePost_eq.
  destruct (decide (decimal_uint32 id)); [|assumption].
  destruct (list_find _ (posts s)) as [[i post]|] eqn:Hf; [|assumption].
  destruct Hok as [Hc Hbelow Hids].
  split; cbn [snd posts postCounter set_posts].
  - assumption.
  - intros p Hp. apply Hbelow. eapply list_elem_of_delete_inv. eassumption.
  - intros j k p q Hj Hk Heq. rewrite list_lookup_delete in Hj, Hk.
    apply (delete_index_inj i). eapply Hids; eassumption.
Qed.

Lemma posts_ok_handle now r s :
  posts_ok s -> postCounter s + 1 < uint_modulus ->
  posts_ok (snd (handle now r s)).
Proof.
  intros Hok Hlt.
  destruct (user_route r) eqn:E.
  - destruct (user_route_keeps_posts now r s E) as [Hp Hc].
    destruct Hok as [H1 H2 H3]. split; rewrite ?Hp, ?Hc; assumption.
  - destruct r as [|b|id|id b|id| |b|id|id b|id]; try discriminate E;
      cbn [handle].
    + assumption.
    + apply posts_ok_createPost; assumption.
    + rewrite getPost_eq. repeat case_match; assumption.
    + apply posts_ok_updatePost; assumption.
    + apply posts_ok_deletePost; assumption.
Qed.

Lemma handle_postCounter_le now r s :
  0 <= postCounter s -> postCounter s + 1 < uint_modulus ->
  postCounter s <= postCounter (snd (handle now r s)) <= postCounter s + 1.
Proof.
  intros H0 Hlt. pose proof (handle_postCounter now r s) as H.
  destruct (created_post_id (fst (handle now r s))).
  - destruct H as [_ ->]. rewrite uint_incr_small by lia. lia.
  - rewrite H. lia.
Qed.

(** For as long as the counter cannot have wrapped, every stored post has an
    identity that was handed out before (at least 1, below the counter), and
    no two stored posts share one. *)
Theorem posts_ok_run reqs : forall s,
  posts_ok s ->
  postCounter s + Z.of_nat (length reqs) < uint_modulus ->
  posts_ok (snd (run reqs s)).
Proof.
  induction reqs as [|[now r] rest IH]; intros s Hok Hlt; [assumption|].
  rewrite run_cons. cbn [snd length] in *.
  pose proof (pok_counter s Hok) as Hc.
  apply IH.
  - apply posts_ok_handle; [assumption|lia].
  - pose proof (handle_postCounter_le now r s). lia.
Qed.

Lemma posts_ok_run_witness :
  posts_ok (snd (run [(10, POST_posts (Bound hello));
                      (11, PUT_posts_id "1" (Bound hello));
                      (12, POST_posts (Bound hello));
                      (13, DELETE_posts_id "1")] init_state)).
Proof.
  apply posts_ok_run; [exact posts_ok_init|].
  vm_compute. reflexivity.
Defined.

Lemma one_post_ok : posts_ok one_post.
Proof.
  apply (posts_ok_createPost (Bound hello) init_state);
    [exact posts_ok_init|vm_compute; reflexivity].
Qed.

Lemma find_post_snoc id (l : list Post.t) p :
  (forall q, q ∈ l -> Post.ID q <> id) -> Post.ID p = id ->
  list_find (fun q => Post.ID q = id) (l ++ [p]) = Some (length l, p).
Proof.
  intros Hl Hp. rewrite list_find_app_r.
  - cbn. rewrite decide_True by assumption. reflexivity.
  - apply find_post_None. intros (q & Hq & Hid). exact (Hl q Hq Hid).
Qed.

(** In a post repository that is in order, the post a create returned is the
    one a get of its identity returns. *)
Theorem createPost_then_getPost bind s p s' id :
  posts_ok s ->
  createPost bind s = (JSON StatusCreated (PostBody p), s') ->
  decimal_uint32 id -> decimal_value id = Post.ID p ->
  getPost id s' = (JSON StatusOK (PostBody p), s').
Proof.
  intros Hok Hc Hw Hid. unfold createPost in Hc.
  destruct bind as [msg|req]; [discriminate|].
  injection Hc as <- <-. cbn [Post.ID] in Hid.
  rewrite getPost_eq. destruct (decide (decimal_uint32 id)); [|contradiction].
  cbn [posts set_posts set_postCounter].
  match goal with
  | |- context [list_find _ (posts s ++ [?p])] =>
      rewrite (find_post_snoc (decimal_value id) (posts s) p)
  end.
  - reflexivity.
  - intros q Hq. pose proof (pok_below s Hok q Hq). lia.
  - cbn. congruence.
Qed.

Lemma createPost_then_getPost_witness :
  getPost "2" (snd (createPost (Bound hello) one_post))
  = (JSON StatusOK
       (PostBody (Post.mk 2 "T" "C" 1 User.zero zero_Time zero_Time)),
     snd (createPost (Bound hello) one_post)).
Proof.
  apply (createPost_then_getPost (Bound hello) one_post).
  - exact one_post_ok.
  - vm_compute. reflexivity.
  - vm_compute. repeat split; [discriminate|repeat constructor; discriminate].
  - reflexivity.
Defined.

Lemma delete_unique_post_gone id (l : list Post.t) (i : nat) p :
  unique_post_ids l -> l !! i = Some p -> Post.ID p = id ->
  ~ exists q, q ∈ delete i l /\ Post.ID q = id.
Proof.
  intros Huniq Hi Hid (q & Hq & Hqid).
  apply list_elem_of_lookup_1 in Hq as [j Hj].
  rewrite list_lookup_delete in Hj.
  assert (Heq : (if decide (j < i)%nat then j else S j) = i)
    by (eapply Huniq; [eassumption|eassumption|congruence]).
  case_decide; lia.
Qed.

(** Where identities are unique, a deleted post is gone: get, update and a
    second delete of the identity are answered with 404. *)
Theorem deletePost_then_gone id s r s' :
  unique_post_ids (posts s) ->
  deletePost id s = (r, s') -> status r = StatusOK ->
  ~ post_present (decimal_value id) s'
  /\ getPost id s' = (JSON StatusNotFound (ErrorBody "Post not found"), s')
  /\ deletePost id s' = (JSON StatusNotFound (ErrorBody "Post not found"), s')
  /\ forall req now,
       updatePost id (Bound req) now s'
       = (JSON StatusNotFound (ErrorBody "Post not found"), s').
Proof.
  intros Huniq. rewrite deletePost_eq.
  destruct (decide (decimal_uint32 id)) as [Hw|Hw];
    [|intros [= <- <-]; discriminate].
  destruct (list_find _ (posts s)) as [[i p]|] eqn:Hf;
    [|intros [= <- <-]; discriminate].
  intros [= <- <-] _. apply list_find_Some in Hf as (Hi & Hid & _).
  pose proof (delete_unique_post_gone _ _ _ _ Huniq Hi Hid) as Hgone.
  assert (Hnone : list_find (fun q => Post.ID q = decimal_value id)
                    (delete i (posts s)) = None)
    by (apply find_post_None; assumption).
  split; [exact Hgone|].
  rewrite getPost_eq, deletePost_eq.
  destruct (decide (decimal_uint32 id)); [|contradiction].
  cbn [posts set_posts]. rewrite Hnone.
  split; [reflexivity|]. split; [reflexivity|].
  intros req now. rewrite updatePost_eq.
  destruct (decide (decimal_uint32 id)); [|contradiction].
  cbn [posts set_posts]. rewrite Hnone. reflexivity.
Qed.

Lemma deletePost_then_gone_witness :
  getPost "1" (snd (deletePost "1" one_post))
  = (JSON StatusNotFound (ErrorBody "Post not found"),
     snd (deletePost "1" one_post)).
Proof.
  apply (deletePost_then_gone "1" one_post (fst (deletePost "1" one_post))).
  - exact (pok_ids one_post one_post_ok).
  - apply surjective_pairing.
  - reflexivity.
Defined.

Lemma find_post_insert id (l : list Post.t) (i : nat) p p' :
  list_find (fun q => Post.ID q = id) l = Some (i, p) ->
  Post.ID p' = id ->
  list_find (fun q => Post.ID q = id) (<[i := p']> l) = Some (i, p').
Proof.
  intros Hf Hid. apply list_find_Some in Hf as (Hi & _ & Hfirst).
  apply list_find_Some. split; [|split].
  - apply list_lookup_insert_eq. eapply lookup_lt_Some. eassumption.
  - assumption.
  - intros j y Hj Hlt. rewrite list_lookup_insert_ne in Hj by lia.
    eapply Hfirst; eassumption.
Qed.

(** An update of a post sent a second time at the same clock reading gets
    the answer of the first and leaves the state the first one made. *)
Theorem updatePost_idempotent id bind now s :
  updatePost id bind now (snd (updatePost id bind now s))
  = updatePost id bind now s.
Proof.
  rewrite (updatePost_eq id bind now s).
  destruct (decide (decimal_uint32 id)) as [Hw|Hw] eqn:Ed;
    [|cbn [snd]; rewrite updatePost_eq, Ed; reflexivity].
  destruct bind as [msg|req];
    [cbn [snd]; rewrite updatePost_eq, Ed; reflexivity|].
  destruct (list_find _ (posts s)) as [[i post]|] eqn:Hf;
    [|cbn [snd]; rewrite updatePost_eq, Ed, Hf; reflexivity].
  cbv zeta. cbn [snd]. rewrite updatePost_eq, Ed.
  cbn [posts set_posts].
  pose proof Hf as Hfind. apply list_find_Some in Hfind as (Hi & Hid & _).
  rewrite (find_post_insert _ _ _ _
             (Post.mk (Post.ID post) (Title req) (Content req)
                      (Post.AuthorID post) (Post.Author post)
                      (Post.CreatedAt post) now) Hf Hid).
  cbv zeta. cbn [Post.ID Post.AuthorID Post.Author Post.CreatedAt].
  rewrite list_insert_insert_eq. reflexivity.
Qed.

(** ** Spellings of an identity *)

Lemma decimal_value_zero_prefix id :
  decimal_value (String "0" id) = decimal_value id.
Proof. reflexivity. Qed.

Lemma decimal_uint32_zero_prefix id :
  id <> "" -> (decimal_uint32 (String "0" id) <-> decimal_uint32 id).
Proof.
  intros Hne. unfold decimal_uint32. rewrite decimal_value_zero_prefix.
  change (bytes (String "0" id)) with (48 :: bytes id).
  rewrite Forall_cons. unfold is_digit at 1.
  split.
  - intros (_ & (_ & Hd) & Hv). auto.
  - intros (_ & Hd & Hv). repeat split; [discriminate|lia|lia|assumption|assumption].
Qed.

(** Leading zeros do not matter: on every by-id route the parameter with a
    [0] put in front gets the same answer and leaves the same state, be the
    parameter well-formed or not. *)
Theorem leading_zero_same_answer now r id s :
  id_param r = Some id -> id <> "" ->
  handle now (set_id (String "0" id) r) s = handle now r s.
Proof.
  intros Hid Hne.
  pose proof (decimal_uint32_zero_prefix id Hne) as Hiff.
  destruct r as [|b|id'|id' b|id'| |b|id'|id' b|id']; try discriminate Hid;
    injection Hid as ->; cbn [handle set_id];
    [rewrite !getUser_eq|rewrite !updateUser_eq|rewrite !deleteUser_eq
    |rewrite !getPost_eq|rewrite !updatePost_eq|rewrite !deletePost_eq];
    rewrite decimal_value_zero_prefix;
    destruct (decide (decimal_uint32 (String "0" id))) as [H0|H0];
    destruct (decide (decimal_uint32 id)) as [H1|H1];
    first [reflexivity|exfalso; tauto].
Qed.

Lemma leading_zero_same_answer_witness :
  handle 30 (set_id "007" (DELETE_users_id "07")) two_users
  = handle 30 (DELETE_users_id "07") two_users.
Proof.
  apply (leading_zero_same_answer 30 (DELETE_users_id "07") "07" two_users).
  - reflexivity.
  - discriminate.
Defined.

(** ** Where the entries of a collection come from *)

Lemma handle_users_origin now r s u' :
  u' ∈ users (snd (handle now r s)) ->
  (exists u, u ∈ users s /\ User.ID u = User.ID u'
     /\ User.CreatedAt u = User.CreatedAt u')
  \/ (User.ID u' = userCounter s /\ User.CreatedAt u' = zero_Time
      /\ User.UpdatedAt u' = zero_Time).
Proof.
  assert (Hsame : u' ∈ users s ->
    (exists u, u ∈ users s /\ User.ID u = User.ID u'
       /\ User.CreatedAt u = User.CreatedAt u')
    \/ (User.ID u' = userCounter s /\ User.CreatedAt u' = zero_Time
        /\ User.UpdatedAt u' = zero_Time)) by (intros; left; eauto).
  destruct (user_route r) eqn:E;
    [|destruct (post_route_keeps_users now r s E) as [-> _]; assumption].
  destruct r as [|b|id|id b|id| |b|id|id b|id]; try discriminate E;
    cbn [handle];
    [unfold getUsers|unfold createUser|rewrite getUser_eq
    |rewrite updateUser_eq|rewrite deleteUser_eq];
    open_handler; cbv zeta; cbn [snd users set_users set_userCounter];
    try assumption.
  - intros Hu. apply elem_of_app in Hu as [Hu|Hu]; [auto|].
    apply list_elem_of_singleton in Hu as ->. right. cbn. auto.
  - intros Hu. apply list_elem_of_lookup_1 in Hu as [k Hk].
    match goal with
    | Hf : list_find _ _ = Some _ |- _ =>
        apply list_find_Some in Hf as (Hi & _ & _)
    end.
    apply list_lookup_insert_Some in Hk as [(<- & <- & _)|[_ Hk]].
    + left. eexists. split; [eapply list_elem_of_lookup_2; eassumption|].
      cbn. auto.
    + apply Hsame. eapply list_elem_of_lookup_2; eassumption.
  - intros Hu. apply Hsame. eapply list_elem_of_delete_inv. eassumption.
Qed.

Lemma handle_posts_origin now r s p' :
  p' ∈ posts (snd (handle now r s)) ->
  (exists p, p ∈ posts s /\ Post.ID p = Post.ID p'
     /\ Post.AuthorID p = Post.AuthorID p'
     /\ Post.Author p = Post.Author p'
     /\ Post.CreatedAt p = Post.CreatedAt p')
  \/ (Post.ID p' = postCounter s
      /\ Post.AuthorID p' =
           match users s with [] => 1 | first :: _ => User.ID first end
      /\ Post.Author p' = User.zero
      /\ Post.CreatedAt p' = zero_Time /\ Post.UpdatedAt p' = zero_Time).
Proof.
  assert (Hsame : p' ∈ posts s ->
    (exists p, p ∈ posts s /\ Post.ID p = Post.ID p'
       /\ Post.AuthorID p = Post.AuthorID p'
       /\ Post.Author p = Post.Author p'
       /\ Post.CreatedAt p = Post.CreatedAt p')
    \/ (Post.ID p' = postCounter s
        /\ Post.AuthorID p' =
             match users s with [] => 1 | first :: _ => User.ID first end
        /\ Post.Author p' = User.zero
        /\ Post.CreatedAt p' = zero_Time /\ Post.UpdatedAt p' = zero_Time))
    by (intros; left; eexists; eauto).
  destruct (user_route r) eqn:E;
    [destruct (user_route_keeps_posts now r s E) as [-> _]; assumption|].
  destruct r as [|b|id|id b|id| |b|id|id b|id]; try discriminate E;
    cbn [handle];
    [unfold getPosts|unfold createPost|rewrite getPost_eq
    |rewrite updatePost_eq|rewrite deletePost_eq];
    open_handler; cbv zeta; cbn [snd posts set_posts set_postCounter];
    try assumption.
  - intros Hp. apply elem_of_app in Hp as [Hp|Hp]; [auto|].
    apply list_elem_of_singleton in Hp as ->. right. cbn.
    split; [reflexivity|]. split; [destruct (users s); reflexivity|]. auto.
  - intros Hp. apply list_elem_of_lookup_1 in Hp as [k Hk].
    match goal with
    | Hf : list_find _ _ = Some _ |- _ =>
        apply list_find_Some in Hf as (Hi & _ & _)
    end.
    apply list_lookup_insert_Some in Hk as [(<- & <- & _)|[_ Hk]].
    + left. eexists. split; [eapply list_elem_of_lookup_2; eassumption|].
      cbn. auto.
    + apply Hsame. eapply list_elem_of_lookup_2; eassumption.
  - intros Hp. apply Hsame. eapply list_elem_of_delete_inv. eassumption.
Qed.

(** No request changes the author of a post: a post found in the collection
    after a request was there before with the same identity, author and
    [CreatedAt], or it is the post this request created, with the counter as
    identity and the first user (or 1) as author. *)
Theorem posts_keep_author now r s p' :
  p' ∈ posts (snd (handle now r s)) ->
  (exists p, p ∈ posts s /\ Post.ID p = Post.ID p'
     /\ Post.AuthorID p = Post.AuthorID p'
     /\ Post.CreatedAt p = Post.CreatedAt p')
  \/ (Post.ID p' = postCounter s
      /\ Post.AuthorID p' =
           match users s with [] => 1 | first :: _ => User.ID first end).
Proof.
  intros Hp. destruct (handle_posts_origin now r s p' Hp)
    as [(p & Hin & Hid & Ha & _ & Hc)|(Hid & Ha & _)].
  - left. exists p. auto.
  - right. auto.
Qed.

Lemma posts_keep_author_witness :
  let p' := Post.mk 1 "T2" "C2" 1 User.zero zero_Time 40 in
  (exists p, p ∈ posts one_post /\ Post.ID p = Post.ID p'
     /\ Post.AuthorID p = Post.AuthorID p'
     /\ Post.CreatedAt p = Post.CreatedAt p')
  \/ (Post.ID p' = postCounter one_post
      /\ Post.AuthorID p' =
           match users one_post with [] => 1 | first :: _ => User.ID first end).
Proof.
  intros p'.
  apply (posts_keep_author 40
           (PUT_posts_id "1" (Bound {| Title := "T2"; Content := "C2" |}))
           one_post p').
  vm_compute. apply list_elem_of_here.
Defined.

Lemma creation_fields_zero_handle now r s :
  creation_fields_zero s -> creation_fields_zero (snd (handle now r s)).
Proof.
  intros [Hu Hp]. split.
  - intros u' Hin.
    destruct (handle_users_origin now r s u' Hin)
      as [(u & Hu' & _ & Hc)|(_ & Hc & _)]; [|assumption].
    rewrite <- Hc. apply Hu. assumption.
  - intros p' Hin.
    destruct (handle_posts_origin now r s p' Hin)
      as [(p & Hp' & _ & _ & Ha & Hc)|(_ & _ & Ha & Hc & _)];
      [|split; assumption].
    rewrite <- Hc, <- Ha. apply Hp. assumption.
Qed.

(** Whatever requests the server has answered, every stored user and post
    has [CreatedAt] at the zero time, and every stored post has the zero
    [User] as [Author]: no handler assigns these fields. *)
Theorem creation_fields_zero_run reqs :
  creation_fields_zero (snd (run reqs init_state)).
Proof.
  assert (H : forall s, creation_fields_zero s ->
                creation_fields_zero (snd (run reqs s))).
  { induction reqs as [|[now r] rest IH]; intros s Hs; [assumption|].
    rewrite run_cons. cbn [snd]. apply IH.
    apply creation_fields_zero_handle. assumption. }
  apply H. split; cbn; intros x Hx; apply elem_of_nil in Hx; contradiction.
Qed.
